(** * sleap-convert: format dispatch and export orchestration

    A shallow embedding of [sleap/io/convert.py] (functions
    [default_analysis_filename] and [main]) together with the pieces of the
    Python standard library the module leans on: substring tests, the
    suffix-stripping regular expression, [pathlib.PurePath] in its POSIX
    flavour, [os.path.dirname] and the [:03] integer format.

    Conventions of the model:
    - Python strings are [string]s; a path is a string.
    - [main] runs in a state made of the outside world, a store of list
      objects and a log of what the invocation did; it either returns or
      raises.  The loader, the reader, the writers and the saver are
      parameters: functions of their arguments and of the world.
    - The argument parser is not modelled; [main] starts from the parsed
      namespace, whose [outputs] is a list object of the store.
    - The project is read, never changed, so [Labels] is a value. *)

From Stdlib Require Import String Ascii List Arith Lia Bool.
From Stdlib Require Import Decimal DecimalNat DecimalString.
From stdpp Require Import gmap strings.
Import ListNotations.

Local Open Scope string_scope.
Local Open Scope list_scope.
Local Open Scope nat_scope.

(** String concatenation computes by [simpl] in this file. *)
#[local] Arguments String.append !_ _ / : simpl nomatch.

(** ** Python string primitives *)

Module PyStr.

(** [sub in s] for strings. *)
Fixpoint contains (sub s : string) : bool :=
  String.prefix sub s ||
  match s with
  | EmptyString => false
  | String _ s' => contains sub s'
  end.

(** [s.rfind(c)], with [None] for Python's [-1]. *)
Fixpoint rfind (c : ascii) (s : string) : option nat :=
  match s with
  | EmptyString => None
  | String a s' =>
      match rfind c s' with
      | Some i => Some (S i)
      | None => if Ascii.eqb a c then Some 0 else None
      end
  end.

(** [s.split("/")]. *)
Fixpoint split_slash (s : string) : list string :=
  match s with
  | EmptyString => [EmptyString]
  | String c s' =>
      if Ascii.eqb c "/" then EmptyString :: split_slash s'
      else match split_slash s' with
           | x :: xs => String c x :: xs
           | [] => [String c EmptyString]
           end
  end.

(** [s.lstrip("/")]. *)
Fixpoint lstrip_slash (s : string) : string :=
  match s with
  | String c s' => if Ascii.eqb c "/" then lstrip_slash s' else s
  | EmptyString => EmptyString
  end.

(** [c * n] for a one-character string [c]. *)
Fixpoint replicate_char (n : nat) (c : ascii) : string :=
  match n with
  | O => EmptyString
  | S n' => String c (replicate_char n' c)
  end.

(** [str(n)] for a non-negative integer. *)
Definition str_of_nat (n : nat) : string :=
  NilEmpty.string_of_uint (Nat.to_uint n).

(** [f"{n:03}"]: decimal digits, zero-filled on the left up to width 3. *)
Definition format_03 (n : nat) : string :=
  let s := str_of_nat n in
  replicate_char (3 - String.length s) "0" +:+ s.

(** If [p] is a prefix of [s], what follows it. *)
Fixpoint strip_prefix (p s : string) : option string :=
  match p with
  | EmptyString => Some s
  | String a p' =>
      match s with
      | String b s' => if Ascii.eqb a b then strip_prefix p' s' else None
      | EmptyString => None
      end
  end.

(** [s.rstrip("/")]. *)
Fixpoint rstrip_slash (s : string) : string :=
  match s with
  | EmptyString => EmptyString
  | String c s' =>
      let r := rstrip_slash s' in
      if Ascii.eqb c "/" && String.eqb r EmptyString then EmptyString
      else String c r
  end.

(** [os.path.dirname(p)] on POSIX. *)
Definition dirname (p : string) : string :=
  let i := match rfind "/" p with Some j => S j | None => 0 end in
  let head := String.substring 0 i p in
  if negb (String.eqb head EmptyString)
     && negb (String.eqb (lstrip_slash head) EmptyString)
  then rstrip_slash head else head.

(** [s.endswith(suf)]: some tail of [s] is [suf]. *)
Fixpoint endswith (s suf : string) : bool :=
  String.eqb s suf ||
  match s with
  | EmptyString => false
  | String _ s' => endswith s' suf
  end.

End PyStr.

(** ** The suffix-stripping substitution

    [re.sub] of the pattern [(\.json(\.zip)?|\.h5|\.slp)$] by the empty
    string.  Without the MULTILINE flag [$] holds at the very end of the
    string and also just before a newline that is the last character of the
    string. *)

Module Re.

Definition newline : ascii := "010".

(** The [$] assertion, seen from the text that is still ahead. *)
Definition at_dollar (rest : string) : bool :=
  match rest with
  | EmptyString => true
  | String c EmptyString => Ascii.eqb c newline
  | _ => false
  end.

(** Try the pattern at the current position; on success give the text that
    follows the match.  Alternatives are tried in the order they are
    written, and the optional group [(\.zip)?] is greedy with
    backtracking. *)
Definition match_here (s : string) : option string :=
  let dollar (r : string) := if at_dollar r then Some r else None in
  let json :=
    match PyStr.strip_prefix ".json" s with
    | Some r =>
        match PyStr.strip_prefix ".zip" r with
        | Some r' => if at_dollar r' then Some r' else dollar r
        | None => dollar r
        end
    | None => None
    end in
  match json with
  | Some r => Some r
  | None =>
      match PyStr.strip_prefix ".h5" s with
      | Some r => if at_dollar r then Some r
                  else match PyStr.strip_prefix ".slp" s with
                       | Some r2 => dollar r2
                       | None => None
                       end
      | None =>
          match PyStr.strip_prefix ".slp" s with
          | Some r2 => dollar r2
          | None => None
          end
      end
  end.

(** Leftmost match replaced by the empty string.  What follows a match is
    empty or a lone newline, where the pattern (at least three characters
    long) cannot match again, so scanning stops there. *)
Fixpoint sub_suffix (s : string) : string :=
  match match_here s with
  | Some rest => rest
  | None =>
      match s with
      | EmptyString => EmptyString
      | String c s' => String c (sub_suffix s')
      end
  end.

End Re.

(** ** [pathlib.PurePath], POSIX flavour *)

Module PurePath.

(** A parsed path: the root (empty, ["/"] or ["//"]) and the components
    below it. *)
Record t : Type := mk { root : string; parts : list string }.

(** [splitroot]: one or three-and-more leading slashes make the root ["/"],
    exactly two make it ["//"]. *)
Definition splitroot (part : string) : string * string :=
  match part with
  | String c _ =>
      if Ascii.eqb c "/" then
        let stripped := PyStr.lstrip_slash part in
        if String.length part - String.length stripped =? 2
        then ("//", stripped) else ("/", stripped)
      else (EmptyString, part)
  | EmptyString => (EmptyString, part)
  end.

Definition keep_component (x : string) : bool :=
  negb (String.eqb x EmptyString) && negb (String.eqb x ".").

(** [parse_parts], walking the arguments from the last one and stopping at
    the first that carries a root. *)
Fixpoint parse_rev (rev_args : list string) : string * list string :=
  match rev_args with
  | [] => (EmptyString, [])
  | part :: rest =>
      if String.eqb part EmptyString then parse_rev rest
      else
        let '(rt, rel) := splitroot part in
        let names := List.filter keep_component (PyStr.split_slash rel) in
        if String.eqb rt EmptyString then
          let '(rt', names') := parse_rev rest in (rt', names' ++ names)
        else (rt, names)
  end.

(** [PurePath(arg1, arg2, ...)]. *)
Definition make (args : list string) : t :=
  let '(rt, names) := parse_rev (rev args) in mk rt names.

(** [str(p)]. *)
Definition str (p : t) : string :=
  let s := root p +:+ String.concat "/" (parts p) in
  if String.eqb s EmptyString then "." else s.

(** [p.parent]. *)
Definition parent (p : t) : t := mk (root p) (removelast (parts p)).

(** [p.name]. *)
Definition name (p : t) : string := List.last (parts p) EmptyString.

(** [p.stem]: the name without its last suffix; a leading or a trailing dot
    does not start a suffix. *)
Definition stem (p : t) : string :=
  let n := name p in
  match PyStr.rfind "." n with
  | Some i =>
      if (0 <? i) && (i <? String.length n - 1)
      then String.substring 0 i n else n
  | None => n
  end.

End PurePath.

(** ** Data model *)

(** A video of the project.  Videos compare by identity; [video_id] stands for
    the identity of the object and [backend_filename] for
    [video.backend.filename]. *)
Record Video : Type := mkVideo { video_id : nat; backend_filename : string }.

#[global] Instance Video_eq_dec : EqDecision Video.
Proof. solve_decision. Defined.

(** The loaded project, of which this module only reads [labels.videos]. *)
Record Labels : Type := mkLabels { videos : list Video }.

(** Mutable Python lists of strings live in a store and are named by their
    location. *)
Definition loc : Type := nat.

(** The namespace built by the argument parser.  [outputs] is a list object,
    hence a location. *)
Record Namespace : Type := mkNamespace {
  input_path : string;
  outputs : loc;
  format : string;
  video : string
}.

(** ** Exceptions and outcomes *)

(** The exception classes the handlers of [main] tell apart.  An exception of
    a subclass is filed under the class a handler would catch it as. *)
Inductive exn_class : Type :=
| TypeError
| ValueError
| IndexError
| OtherError (name : string).

#[global] Instance exn_class_eq_dec : EqDecision exn_class.
Proof. solve_decision. Defined.

Record exn : Type := mkExn { exn_cls : exn_class; exn_args : list string }.

Inductive result (A : Type) : Type :=
| Ok (a : A)
| Raise (e : exn).
Arguments Ok {A} a.
Arguments Raise {A} e.

(** What an invocation does that can be observed from outside. *)
Inductive event : Type :=
| EPrint (msg : string)
| EPrintArgs (args : Namespace)
| ELoadFile (filename search_dir : string)
| ERead (filename search_dir : string) (video_hint : option string)
| ENixWrite (outname source_path : string) (v : Video)
| EWriteAnalysis (output_path labels_path : string) (all_frames : bool) (v : Video)
| ESaveFile (filename : string).

(** The writer calls of a log, as (video, output path) pairs in call order. *)
Fixpoint attempts (l : list event) : list (Video * string) :=
  match l with
  | [] => []
  | ENixWrite o _ v :: l' => (v, o) :: attempts l'
  | EWriteAnalysis o _ _ v :: l' => (v, o) :: attempts l'
  | _ :: l' => attempts l'
  end.

(** The paths handed to the native saver, in call order. *)
Fixpoint saves (l : list event) : list string :=
  match l with
  | [] => []
  | ESaveFile f :: l' => f :: saves l'
  | _ :: l' => saves l'
  end.

(** ** The external collaborators

    Loader, generic reader, the two analysis writers and the native saver are
    outside this module.  Each is a function of its arguments and of the state
    of the outside world, which it may change, and either returns or raises. *)
Record Services (World : Type) : Type := mkServices {
  load_file : string -> string -> World -> World * result Labels;
  read : string -> string -> option string -> World -> World * result Labels;
  nix_write : string -> Labels -> string -> Video -> World -> World * result unit;
  write_analysis :
    Labels -> string -> string -> bool -> Video -> World -> World * result unit;
  save_file : Labels -> string -> World -> World * result unit
}.
Arguments load_file {World} _ _ _ _.
Arguments read {World} _ _ _ _ _.
Arguments nix_write {World} _ _ _ _ _ _.
Arguments write_analysis {World} _ _ _ _ _ _ _.
Arguments save_file {World} _ _ _ _.

(** ** State and the interpreter monad *)

Record state (World : Type) : Type := mkState {
  world : World;
  heap : gmap loc (list string);
  log : list event
}.
Arguments mkState {World} _ _ _.
Arguments world {World} _.
Arguments heap {World} _.
Arguments log {World} _.

Section Interp.
Context {World : Type}.

Definition M (A : Type) : Type := state World -> state World * result A.

Definition ret {A} (a : A) : M A := fun s => (s, Ok a).

Definition bind {A B} (m : M A) (k : A -> M B) : M B :=
  fun s =>
    match m s with
    | (s', Ok a) => k a s'
    | (s', Raise e) => (s', Raise e)
    end.

Definition raise {A} (e : exn) : M A := fun s => (s, Raise e).

Definition lift_result {A} (r : result A) : M A := fun s => (s, r).

(** [try: m / except cls: handler]. *)
Definition try_except {A} (m : M A) (cls : exn_class) (handler : exn -> M A)
  : M A :=
  fun s =>
    match m s with
    | (s', Raise e) =>
        if decide (exn_cls e = cls) then handler e s' else (s', Raise e)
    | r => r
    end.

Definition emit (ev : event) : M unit :=
  fun s => (mkState (world s) (heap s) (log s ++ [ev]), Ok tt).

Definition print (msg : string) : M unit := emit (EPrint msg).

(** A call to a collaborator: the call is logged, then the collaborator runs
    on the world. *)
Definition call {A} (ev : event) (f : World -> World * result A) : M A :=
  fun s =>
    let '(w', r) := f (world s) in
    (mkState w' (heap s) (log s ++ [ev]), r).

(** Reading a name bound to no object cannot happen in a running program;
    the interpreter stops with this error. *)
Definition dangling : exn := mkExn (OtherError "SystemError") [].

Definition read_list (l : loc) : M (list string) :=
  fun s =>
    match heap s !! l with
    | Some xs => (s, Ok xs)
    | None => (s, Raise dangling)
    end.

(** A new list object holding [xs]. *)
Definition new_list (xs : list string) : M loc :=
  fun s =>
    let l := fresh (dom (heap s)) in
    (mkState (world s) (<[l := xs]> (heap s)) (log s), Ok l).

(** [l.append(x)]. *)
Definition list_append (l : loc) (x : string) : M unit :=
  fun s =>
    match heap s !! l with
    | Some xs => (mkState (world s) (<[l := xs ++ [x]]> (heap s)) (log s), Ok tt)
    | None => (s, Raise dangling)
    end.

(** [for x in xs: body(x)]. *)
Fixpoint for_each {A} (xs : list A) (body : A -> M unit) : M unit :=
  match xs with
  | [] => ret tt
  | x :: xs' => bind (body x) (fun _ => for_each xs' body)
  end.

End Interp.

Notation "'let*' x ':=' c 'in' k" := (bind c (fun x => k))
  (at level 10, x name, c at level 100, k at level 200).

(** ** The module's functions *)

(** [labels.videos.index(video)]; [None] is the [ValueError] of a missing
    element. *)
Fixpoint list_index (v : Video) (l : list Video) : option nat :=
  match l with
  | [] => None
  | x :: l' =>
      if decide (x = v) then Some 0 else option_map S (list_index v l')
  end.

(** [default_analysis_filename(labels, video, output_path, output_prefix,
    format_suffix)]. *)
Definition default_analysis_filename (labels : Labels) (video : Video)
    (output_path output_prefix format_suffix : string) : result string :=
  match list_index video (videos labels) with
  | None => Raise (mkExn ValueError ["Video is not in list"])
  | Some video_idx =>
      let vn := PurePath.make [backend_filename video] in
      Ok (PurePath.str
            (PurePath.make
               [output_path;
                output_prefix +:+ "." +:+ PyStr.format_03 video_idx +:+ "_"
                  +:+ PurePath.stem vn +:+ ".analysis." +:+ format_suffix]))
  end.

(** The loop of lines 128-131: the first video whose backing file name
    contains the filter, alone, or nothing. *)
Fixpoint first_match (needle : string) (vs : list Video) : list Video :=
  match vs with
  | [] => []
  | v :: vs' =>
      if PyStr.contains needle (backend_filename v) then [v]
      else first_match needle vs'
  end.

(** Lines 126-133: the videos to convert. *)
Definition select_videos (args : Namespace) (labels : Labels) : list Video :=
  if 0 <? String.length (video args)
  then first_match (video args) (videos labels)
  else videos labels.

Definition out_suffix_of (fmt : string) : string :=
  if PyStr.contains "nix" fmt then "nix" else "h5".

Definition notice_fallback : string :=
  "Input file isn't SLEAP dataset so attempting other importers...".

Definition notice_no_conversion : string :=
  "You didn't specify how to convert the file.".

Section Main.
Context {World : Type} (svc : Services World).

(** Lines 109-124: the native loader, then on [TypeError] the generic
    reader. *)
Definition import_labels (args : Namespace) : M (World := World) Labels :=
  let video_callback := PyStr.dirname (input_path args) in
  try_except
    (call (ELoadFile (input_path args) video_callback)
          (load_file svc (input_path args) video_callback))
    TypeError
    (fun _ =>
       let* _ := print notice_fallback in
       let video_path :=
         if String.eqb (video args) EmptyString then None
         else Some (video args) in
       call (ERead (input_path args) video_callback video_path)
            (read svc (input_path args) video_callback video_path)).

(** Lines 135-151: a fresh list with the explicit paths, completed with
    default names when it is shorter than the selection. *)
Definition plan_outnames (args : Namespace) (labels : Labels)
    (vids : list Video) : M (World := World) loc :=
  let* explicit := read_list (outputs args) in
  let* outnames := new_list explicit in
  let* current := read_list outnames in
  let* _ :=
    if length current <? length vids then
      let out_suffix := out_suffix_of (format args) in
      let fn := PurePath.make [Re.sub_suffix (input_path args)] in
      for_each (skipn (length current) vids)
        (fun video =>
           let* dflt_name :=
             lift_result
               (default_analysis_filename labels video
                  (PurePath.str (PurePath.parent fn))
                  (PurePath.stem fn)
                  out_suffix) in
           list_append outnames dflt_name)
    else ret tt in
  ret outnames.

(** [zip(vids, outnames)], the targets both dispatch loops walk. *)
Definition plan_targets (args : Namespace) (labels : Labels)
  : M (World := World) (list (Video * string)) :=
  let vids := select_videos args labels in
  let* outnames := plan_outnames args labels vids in
  let* names := read_list outnames in
  ret (combine vids names).

(** [print(e.args[0])]. *)
Definition print_first_arg (e : exn) : M (World := World) unit :=
  match exn_args e with
  | a :: _ => print a
  | [] => raise (mkExn IndexError ["tuple index out of range"])
  end.

(** Lines 156-160. *)
Definition dispatch_nix (args : Namespace) (labels : Labels)
    (targets : list (Video * string)) : M (World := World) unit :=
  for_each targets
    (fun t =>
       try_except
         (call (ENixWrite (snd t) (input_path args) (fst t))
               (nix_write svc (snd t) labels (input_path args) (fst t)))
         ValueError
         print_first_arg).

(** Lines 164-171. *)
Definition dispatch_h5 (args : Namespace) (labels : Labels)
    (targets : list (Video * string)) : M (World := World) unit :=
  for_each targets
    (fun t =>
       call (EWriteAnalysis (snd t) (input_path args) true (fst t))
            (write_analysis svc labels (snd t) (input_path args) true (fst t))).

(** Lines 126-171.  Both branches of line 153 walk the same
    [zip(vids, outnames)]. *)
Definition export_analysis (args : Namespace) (labels : Labels)
  : M (World := World) unit :=
  let* targets := plan_targets args labels in
  if PyStr.contains "nix" (format args)
  then dispatch_nix args labels targets
  else dispatch_h5 args labels targets.

(** Lines 173-184. *)
Definition save_native (args : Namespace) (labels : Labels)
  : M (World := World) unit :=
  let* outs := read_list (outputs args) in
  match outs with
  | first :: _ =>
      let* _ := print ("Output SLEAP dataset: " +:+ first) in
      call (ESaveFile first) (save_file svc labels first)
  | [] =>
      if existsb (String.eqb (format args)) ["slp"; "h5"; "json"] then
        let output_path := input_path args +:+ "." +:+ format args in
        let* _ := print ("Output SLEAP dataset: " +:+ output_path) in
        call (ESaveFile output_path) (save_file svc labels output_path)
      else
        let* _ := print notice_no_conversion in
        emit (EPrintArgs args)
  end.

(** [main], after argument parsing. *)
Definition main (args : Namespace) : M (World := World) unit :=
  let* labels := import_labels args in
  if PyStr.contains "analysis" (format args)
  then export_analysis args labels
  else save_native args labels.

End Main.

(** * Vocabulary of the properties *)

Section Vocabulary.
Context {World : Type} (svc : Services World).
Implicit Types (s : state World).

(** The directory, prefix and suffix handed to
    [default_analysis_filename] on lines 138-149. *)
Definition naming_of (args : Namespace) : string * string * string :=
  let fn := PurePath.make [Re.sub_suffix (input_path args)] in
  (PurePath.str (PurePath.parent fn), PurePath.stem fn,
   out_suffix_of (format args)).

Definition is_default_name (args : Namespace) (labels : Labels)
    (v : Video) (p : string) : Prop :=
  let '(dir, pre, suf) := naming_of args in
  default_analysis_filename labels v dir pre suf = Ok p.

(** The state right after the writer was called on a target. *)
Definition after_call s (w : World) (ev : event) : state World :=
  mkState w (heap s) (log s ++ [ev]).

(** Every failure of the NIX writer is a value error that carries a
    message. *)
Definition nix_fails_softly (args : Namespace) (labels : Labels) : Prop :=
  forall o v w,
    match nix_write svc o labels (input_path args) v w with
    | (_, Raise e) => exn_cls e = ValueError /\ exn_args e <> []
    | (_, Ok _) => True
    end.

Definition video_hint (args : Namespace) : option string :=
  if String.eqb (video args) EmptyString then None else Some (video args).

(** Does this outcome of the native loader send the importer to the generic
    reader? *)
Definition falls_back (r : result Labels) : bool :=
  match r with
  | Raise e => bool_decide (exn_cls e = TypeError)
  | Ok _ => false
  end.

Definition is_native_format (fmt : string) : bool :=
  existsb (String.eqb fmt) ["slp"; "h5"; "json"].

(** The path the native branch saves to, if it saves. *)
Definition native_target (args : Namespace) (explicit : list string)
  : option string :=
  match explicit with
  | first :: _ => Some first
  | [] =>
      if is_native_format (format args)
      then Some (input_path args +:+ "." +:+ format args)
      else None
  end.

Definition recognized_suffixes : list string :=
  [".json"; ".json.zip"; ".h5"; ".slp"].

Definition newline_str : string := String Re.newline EmptyString.

(** [p] ends in a recognized suffix. *)
Definition ends_recognized (p : string) : bool :=
  existsb (PyStr.endswith p) recognized_suffixes.

(** [p] ends in a recognized suffix followed by one newline. *)
Definition ends_recognized_newline (p : string) : bool :=
  existsb (fun suf => PyStr.endswith p (suf +:+ newline_str))
          recognized_suffixes.

(** The stem the default names are built on. *)
Definition base_stem (input : string) : string :=
  PurePath.stem (PurePath.make [Re.sub_suffix input]).

(** No slash occurs in [s]. *)
Fixpoint no_slash (s : string) : bool :=
  match s with
  | EmptyString => true
  | String c s' => negb (Ascii.eqb c "/") && no_slash s'
  end.

(** [x] can stand as one component of a parsed path. *)
Definition component (x : string) : bool :=
  no_slash x && PurePath.keep_component x.

(** The invariant of parsed paths. *)
Definition wf_path (p : PurePath.t) : Prop :=
  In (PurePath.root p) [EmptyString; "/"; "//"]
  /\ Forall (fun x => component x = true) (PurePath.parts p).

(** The text of [PurePath(dir, name)] in terms of the text [dir]: the
    directory ["."] disappears, a root is not followed by a further slash,
    any other directory is followed by one. *)
Definition join_dir (dir name : string) : string :=
  if String.eqb dir "." then name
  else if String.eqb dir "/" || String.eqb dir "//" then dir +:+ name
  else dir +:+ "/" +:+ name.

Definition is_digit (c : ascii) : bool :=
  existsb (Ascii.eqb c) ["0"; "1"; "2"; "3"; "4"; "5"; "6"; "7"; "8"; "9"]%char.

Fixpoint all_digits (s : string) : bool :=
  match s with
  | EmptyString => true
  | String c s' => is_digit c && all_digits s'
  end.

(** Leading zeros do not change the number read back. *)
Fixpoint zeros (n : nat) (d : uint) : uint :=
  match n with
  | O => d
  | S n' => D0 (zeros n' d)
  end.

(** The number written by the format, read back. *)
Definition read_decimal (s : string) : option nat :=
  option_map Nat.of_uint (NilEmpty.uint_of_string s).

(** The file name of a default path. *)
Definition analysis_name (pre : string) (idx : nat) (vstem suf : string)
  : string :=
  pre +:+ "." +:+ PyStr.format_03 idx +:+ "_" +:+ vstem +:+ ".analysis." +:+ suf.

(** The analysis writers never fail. *)
Definition writers_succeed_always (args : Namespace) (labels : Labels) : Prop :=
  forall o v w,
    snd (nix_write svc o labels (input_path args) v w) = Ok tt
    /\ snd (write_analysis svc labels o (input_path args) true v w) = Ok tt.

(** The character [c] does not occur in [s]. *)
Fixpoint lacks (c : ascii) (s : string) : bool :=
  match s with
  | EmptyString => true
  | String a s' => negb (Ascii.eqb a c) && lacks c s'
  end.

End Vocabulary.

(** Matching two spellings of one string character by character. *)
Ltac peel_strings :=
  repeat (simpl in *; subst; try discriminate;
          match goal with
          | H : String _ _ = String _ _ |- _ => injection H; clear H; intros
          | H : ?p +:+ _ = String _ _ |- _ => is_var p; destruct p
          | H : String _ _ = ?p +:+ _ |- _ => is_var p; destruct p
          | H : EmptyString = ?p +:+ _ |- _ => is_var p; destruct p
          | H : ?p +:+ _ = EmptyString |- _ => is_var p; destruct p
          end).

(** * Scenarios

    Concrete projects and collaborators on which the properties are
    exercised. *)

Module Scenario.

Definition camA : Video := mkVideo 0 "vids/camA.mp4".
Definition camB : Video := mkVideo 1 "vids/camB.mp4".
Definition two_cameras : Labels := mkLabels [camA; camB].

(** Collaborators whose world is the list of paths written so far.  The
    loader gives [load]; the writers fail as [nix] and [h5] say. *)
Definition scripted (load : result Labels) (nix h5 : string -> result unit)
  : Services (list string) :=
  mkServices (list string)
    (fun _ _ w => (w, load))
    (fun _ _ _ w => (w, Ok two_cameras))
    (fun o _ _ _ w =>
       match nix o with Ok _ => (o :: w, Ok tt) | Raise e => (w, Raise e) end)
    (fun _ o _ _ _ w =>
       match h5 o with Ok _ => (o :: w, Ok tt) | Raise e => (w, Raise e) end)
    (fun _ o w => (o :: w, Ok tt)).

Definition io_error : exn := mkExn (OtherError "OSError") ["No space left"].
Definition codec_error : exn := mkExn ValueError ["Unsupported codec"].
Definition not_native : exn := mkExn TypeError ["not a SLEAP dataset"].

Definition reliable : Services (list string) :=
  scripted (Ok two_cameras) (fun _ => Ok tt) (fun _ => Ok tt).

Definition h5_failing : Services (list string) :=
  scripted (Ok two_cameras) (fun _ => Ok tt) (fun _ => Raise io_error).

Definition nix_rejecting (bad : string) : Services (list string) :=
  scripted (Ok two_cameras)
    (fun o => if String.eqb o bad then Raise codec_error else Ok tt)
    (fun _ => Ok tt).

Definition invocation (input fmt vid : string) : Namespace :=
  mkNamespace input 0 fmt vid.

(** Nothing written, nothing logged, and the explicit outputs at location
    0. *)
Definition initial (outs : list string) : state (list string) :=
  mkState [] {[ 0 := outs ]} [].

Definition loaded (input dir : string) (outs : list string)
  : state (list string) :=
  mkState [] {[ 0 := outs ]} [ELoadFile input dir].

Definition nix_with_one_output : Namespace :=
  invocation "data.json.zip" "analysis.nix" "".

Definition h5_no_output : Namespace := invocation "proj.slp" "analysis" "".

Definition filter_zzz : Namespace := invocation "proj.slp" "analysis" "zzz".

Definition load_failing : Services (list string) :=
  scripted (Raise io_error) (fun _ => Ok tt) (fun _ => Ok tt).

Definition in_data_dir : Namespace := invocation "data/proj.slp" "analysis" "".

End Scenario.

(** * Properties *)

Example contains_analysis_nix : PyStr.contains "analysis" "analysis.nix" = true.
Proof. reflexivity. Qed.

Example format_03_7 : PyStr.format_03 7 = "007".
Proof. reflexivity. Qed.

Example format_03_1234 : PyStr.format_03 1234 = "1234".
Proof. reflexivity. Qed.

Example sub_suffix_json_zip : Re.sub_suffix "d/data.json.zip" = "d/data".
Proof. reflexivity. Qed.

Example sub_suffix_inner : Re.sub_suffix "a.slp.h5" = "a.slp".
Proof. reflexivity. Qed.

Example purepath_parent_bare :
  PurePath.str (PurePath.parent (PurePath.make ["proj"])) = ".".
Proof. reflexivity. Qed.

Example purepath_join_abs :
  PurePath.str (PurePath.make ["/data//run/./x"; "y.h5"]) = "/data/run/x/y.h5".
Proof. reflexivity. Qed.

Example purepath_stem_dots :
  PurePath.stem (PurePath.make ["a/b.tar.gz"]) = "b.tar"
  /\ PurePath.stem (PurePath.make [".hidden"]) = ".hidden".
Proof. split; reflexivity. Qed.

(** ** Lists *)

Lemma in_skipn {A} (n : nat) (l : list A) (x : A) : In x (skipn n l) -> In x l.
Proof.
  intros H. rewrite <- (firstn_skipn n l). apply in_or_app. now right.
Qed.

(** ** Video selection and the index of a video *)

Lemma first_match_incl (needle : string) (vs : list Video) (v : Video) :
  In v (first_match needle vs) -> In v vs.
Proof.
  induction vs as [|x vs IH]; simpl; [tauto|].
  destruct (PyStr.contains needle (backend_filename x)).
  - simpl. intros [->|[]]. now left.
  - intros H. right. now apply IH.
Qed.

Lemma first_match_length (needle : string) (vs : list Video) :
  length (first_match needle vs) <= 1.
Proof.
  induction vs as [|x vs IH]; simpl; [lia|].
  destruct (PyStr.contains needle (backend_filename x)); simpl; lia.
Qed.

Lemma first_match_none (needle : string) (vs : list Video) :
  (forall v, In v vs -> PyStr.contains needle (backend_filename v) = false) ->
  first_match needle vs = [].
Proof.
  induction vs as [|x vs IH]; simpl; intros H; [reflexivity|].
  rewrite (H x) by now left. apply IH. intros v Hv. apply H. now right.
Qed.

Lemma select_videos_incl (args : Namespace) (labels : Labels) (v : Video) :
  In v (select_videos args labels) -> In v (videos labels).
Proof.
  unfold select_videos. destruct (0 <? String.length (video args)); [|tauto].
  apply first_match_incl.
Qed.

Lemma list_index_In (v : Video) (l : list Video) :
  In v l -> exists i, list_index v l = Some i.
Proof.
  induction l as [|x l IH]; simpl; [tauto|]. intros H.
  destruct (decide (x = v)) as [->|Hne]; [now exists 0|].
  destruct H as [H|H]; [congruence|].
  destruct (IH H) as [i Hi]. exists (S i). now rewrite Hi.
Qed.

Lemma list_index_spec (v : Video) (l : list Video) (i : nat) :
  list_index v l = Some i ->
  nth_error l i = Some v /\ forall j, j < i -> nth_error l j <> Some v.
Proof.
  revert i. induction l as [|x l IH]; simpl; intros i H; [discriminate|].
  destruct (decide (x = v)) as [->|Hne].
  - injection H as <-. split; [reflexivity|]. intros j Hj. lia.
  - destruct (list_index v l) as [k|] eqn:E; [|discriminate].
    injection H as <-. destruct (IH k eq_refl) as [Hk Hmin]. split; [exact Hk|].
    intros [|j] Hj; simpl; [congruence|]. apply Hmin. lia.
Qed.

Lemma list_index_nth (l : list Video) (i : nat) (v : Video) :
  List.NoDup l -> nth_error l i = Some v -> list_index v l = Some i.
Proof.
  intros Hnd. revert i. induction Hnd as [|x l Hx Hnd IH]; intros [|i] H;
    simpl in *; try discriminate.
  - injection H as ->. now rewrite decide_True.
  - destruct (decide (x = v)) as [->|Hne].
    + exfalso. apply Hx. eapply nth_error_In, H.
    + now rewrite (IH i H).
Qed.

(** ** Running the planner *)

Section PlannerFacts.
Context {World : Type}.
Implicit Types (s : state World) (l : loc).

Lemma for_each_append {A} (f : A -> result string) l :
  forall (vs : list A) (ps : list string),
    Forall2 (fun v p => f v = Ok p) vs ps ->
    forall s xs,
      heap s !! l = Some xs ->
      for_each vs
        (fun v => let* d := lift_result (f v) in list_append l d) s
      = (mkState (world s) (<[l := xs ++ ps]> (heap s)) (log s), Ok tt).
Proof.
  induction 1 as [|v p vs ps Hv _ IH]; intros s xs Hl.
  - simpl. unfold ret. rewrite app_nil_r, insert_id by exact Hl.
    now destruct s.
  - simpl. unfold bind at 1. unfold bind at 1. unfold lift_result.
    rewrite Hv. unfold list_append at 1. rewrite Hl.
    erewrite IH by (simpl; apply lookup_insert_eq). simpl.
    rewrite insert_insert_eq. now rewrite <- app_assoc.
Qed.

Lemma default_names_exist (labels : Labels) (dir pre suf : string) :
  forall vs : list Video,
    (forall v, In v vs -> In v (videos labels)) ->
    exists ps,
      Forall2 (fun v p => default_analysis_filename labels v dir pre suf = Ok p)
              vs ps.
Proof.
  induction vs as [|v vs IH]; intros Hin.
  - exists []. constructor.
  - destruct IH as [ps Hps]; [intros; apply Hin; now right|].
    destruct (list_index_In v (videos labels)) as [i Hi];
      [apply Hin; now left|].
    eexists (_ :: ps). constructor; [|exact Hps].
    unfold default_analysis_filename. rewrite Hi. reflexivity.
Qed.

(** The planner never raises on a selection drawn from the project: it
    allocates one list, leaves every other object alone and fills the new
    list with the explicit paths followed by the default names of the videos
    beyond them. *)
Lemma plan_outnames_run (args : Namespace) (labels : Labels)
    (vids : list Video) s (explicit : list string) :
  heap s !! outputs args = Some explicit ->
  (forall v, In v vids -> In v (videos labels)) ->
  exists ps,
    let fn := PurePath.make [Re.sub_suffix (input_path args)] in
    Forall2
      (fun v p =>
         default_analysis_filename labels v
           (PurePath.str (PurePath.parent fn)) (PurePath.stem fn)
           (out_suffix_of (format args)) = Ok p)
      (skipn (length explicit) vids) ps
    /\ plan_outnames args labels vids s
       = (mkState (world s)
                  (<[fresh (dom (heap s)) := explicit ++ ps]> (heap s))
                  (log s),
          Ok (fresh (dom (heap s)))).
Proof.
  intros Hout Hin.
  destruct (default_names_exist labels
              (PurePath.str (PurePath.parent
                 (PurePath.make [Re.sub_suffix (input_path args)])))
              (PurePath.stem (PurePath.make [Re.sub_suffix (input_path args)]))
              (out_suffix_of (format args))
              (skipn (length explicit) vids)) as [ps Hps].
  { intros v Hv. apply Hin. eapply in_skipn, Hv. }
  exists ps. split; [exact Hps|].
  unfold plan_outnames. unfold bind at 1. unfold read_list at 1.
  rewrite Hout. unfold bind at 1. unfold new_list.
  set (l := fresh (dom (heap s))).
  unfold bind at 1. unfold read_list at 1. simpl heap.
  rewrite lookup_insert_eq. unfold bind at 1.
  destruct (length explicit <? length vids) eqn:Hlt.
  - erewrite for_each_append; [|exact Hps|simpl; apply lookup_insert_eq].
    simpl. unfold ret. now rewrite insert_insert_eq.
  - apply Nat.ltb_ge in Hlt. rewrite skipn_all2 in Hps by exact Hlt.
    inversion Hps; subst. unfold ret. now rewrite app_nil_r.
Qed.

End PlannerFacts.

Lemma map_fst_combine {A B} (xs : list A) (ys : list B) :
  length xs <= length ys -> map fst (combine xs ys) = xs.
Proof.
  revert ys. induction xs as [|x xs IH]; intros [|y ys] H; simpl in *;
    try reflexivity; try lia.
  f_equal. apply IH. lia.
Qed.

Lemma map_snd_combine {A B} (xs : list A) (ys : list B) :
  map snd (combine xs ys) = firstn (length xs) ys.
Proof.
  revert ys. induction xs as [|x xs IH]; intros [|y ys]; simpl;
    try reflexivity.
  f_equal. apply IH.
Qed.

Section PlanTargets.
Context {World : Type} (svc : Services World).
Implicit Types (s : state World).

Lemma plan_targets_run (args : Namespace) (labels : Labels) s
    (explicit : list string) :
  heap s !! outputs args = Some explicit ->
  exists ps,
    Forall2 (is_default_name args labels)
            (skipn (length explicit) (select_videos args labels)) ps
    /\ plan_targets args labels s
       = (mkState (world s)
                  (<[fresh (dom (heap s)) := explicit ++ ps]> (heap s))
                  (log s),
          Ok (combine (select_videos args labels) (explicit ++ ps))).
Proof.
  intros Hout.
  destruct (plan_outnames_run args labels (select_videos args labels) s
              explicit Hout (select_videos_incl args labels))
    as [ps [Hps Hrun]].
  exists ps. split; [exact Hps|].
  unfold plan_targets. unfold bind at 1. rewrite Hrun.
  unfold bind, read_list, ret. simpl. now rewrite lookup_insert_eq.
Qed.

(** C1: with V selected videos and E explicit paths the planner produces
    exactly V targets, one per selected video in selection order; the first
    min(E, V) carry the explicit paths in the order given, the others carry
    the default name of their video, and explicit paths beyond the V-th are
    not used.  These targets are the ones the dispatch loop walks. *)
Theorem plan_targets_explicit_then_default (args : Namespace)
    (labels : Labels) s (explicit : list string) :
  heap s !! outputs args = Some explicit ->
  let vids := select_videos args labels in
  let V := length vids in
  let E := length explicit in
  exists s' targets,
    plan_targets args labels s = (s', Ok targets)
    /\ length targets = V
    /\ map fst targets = vids
    /\ firstn (min E V) (map snd targets) = firstn (min E V) explicit
    /\ length (skipn E targets) = V - E
    /\ Forall2 (is_default_name args labels)
               (skipn E vids) (skipn E (map snd targets))
    /\ export_analysis svc args labels s
       = (if PyStr.contains "nix" (format args)
          then dispatch_nix svc args labels targets s'
          else dispatch_h5 svc args labels targets s').
Proof.
  intros Hout vids V E.
  destruct (plan_targets_run args labels s explicit Hout) as [ps [Hps Hrun]].
  fold vids in Hps, Hrun. fold E in Hps.
  assert (Hlen : length ps = V - E).
  { apply Forall2_length in Hps. rewrite length_skipn in Hps.
    subst V E. lia. }
  assert (Hge : V <= length (explicit ++ ps)).
  { rewrite length_app. subst V E. lia. }
  eexists _, _. split; [exact Hrun|].
  assert (Hfst : map fst (combine vids (explicit ++ ps)) = vids)
    by (apply map_fst_combine; exact Hge).
  assert (Hcl : length (combine vids (explicit ++ ps)) = V).
  { rewrite length_combine. subst V. lia. }
  split; [exact Hcl|]. split; [exact Hfst|].
  rewrite map_snd_combine. fold V.
  split; [|split; [|split]].
  - rewrite firstn_firstn.
    replace (min (min E V) V) with (min E V) by lia.
    rewrite firstn_app. fold E.
    replace (min E V - E) with 0 by lia.
    now rewrite firstn_0, app_nil_r.
  - rewrite length_skipn, Hcl. reflexivity.
  - destruct (le_lt_dec E V) as [Hle|Hgt].
    + rewrite firstn_all2 by (rewrite length_app; fold E; lia).
      rewrite skipn_app. subst E.
      now rewrite Nat.sub_diag, skipn_0, skipn_all.
    + assert (ps = []) as -> by (apply length_zero_iff_nil; lia).
      rewrite (@skipn_all2 _ E vids) by (fold V; lia).
      rewrite (@skipn_all2 _ E (firstn V _)) by (rewrite length_firstn; lia).
      constructor.
  - unfold export_analysis. unfold bind at 1. rewrite Hrun.
    now destruct (PyStr.contains "nix" (format args)).
Qed.

End PlanTargets.

(** ** Loops, logs and the dispatch loops *)

Lemma attempts_app (l1 l2 : list event) :
  attempts (l1 ++ l2) = attempts l1 ++ attempts l2.
Proof.
  induction l1 as [|ev l1 IH]; simpl; [reflexivity|].
  destruct ev; simpl; now rewrite ?IH.
Qed.

Lemma saves_app (l1 l2 : list event) : saves (l1 ++ l2) = saves l1 ++ saves l2.
Proof.
  induction l1 as [|ev l1 IH]; simpl; [reflexivity|].
  destruct ev; simpl; now rewrite ?IH.
Qed.

Section DispatchFacts.
Context {World : Type} (svc : Services World).
Implicit Types (s : state World) (t : Video * string).

Lemma for_each_app {A} (body : A -> M (World := World) unit) (xs ys : list A) s :
  for_each (xs ++ ys) body s
  = match for_each xs body s with
    | (s1, Ok _) => for_each ys body s1
    | (s1, Raise e) => (s1, Raise e)
    end.
Proof.
  revert s. induction xs as [|x xs IH]; intros s; simpl; [reflexivity|].
  unfold bind. destruct (body x s) as [s1 [[]|e]]; [apply IH|reflexivity].
Qed.

(** One turn of the NIX loop, by outcome of the writer. *)
Lemma dispatch_nix_cons (args : Namespace) (labels : Labels) t ts s :
  dispatch_nix svc args labels (t :: ts) s
  = let ev := ENixWrite (snd t) (input_path args) (fst t) in
    match nix_write svc (snd t) labels (input_path args) (fst t) (world s) with
    | (w, Ok _) => dispatch_nix svc args labels ts (after_call s w ev)
    | (w, Raise e) =>
        if decide (exn_cls e = ValueError) then
          match exn_args e with
          | m :: _ =>
              dispatch_nix svc args labels ts
                (after_call (after_call s w ev) w (EPrint m))
          | [] =>
              (after_call s w ev,
               Raise (mkExn IndexError ["tuple index out of range"]))
          end
        else (after_call s w ev, Raise e)
    end.
Proof.
  unfold dispatch_nix at 1. simpl for_each. unfold bind at 1.
  unfold try_except, call.
  destruct (nix_write svc (snd t) labels (input_path args) (fst t) (world s))
    as [w [[]|e]]; simpl; [reflexivity|].
  destruct (decide (exn_cls e = ValueError)); [|reflexivity].
  unfold print_first_arg. destruct (exn_args e); reflexivity.
Qed.

(** One turn of the HDF5 loop. *)
Lemma dispatch_h5_cons (args : Namespace) (labels : Labels) t ts s :
  dispatch_h5 svc args labels (t :: ts) s
  = let ev := EWriteAnalysis (snd t) (input_path args) true (fst t) in
    match write_analysis svc labels (snd t) (input_path args) true (fst t)
                         (world s) with
    | (w, Ok _) => dispatch_h5 svc args labels ts (after_call s w ev)
    | (w, Raise e) => (after_call s w ev, Raise e)
    end.
Proof.
  unfold dispatch_h5 at 1. simpl for_each. unfold bind at 1. unfold call.
  destruct (write_analysis svc labels (snd t) (input_path args) true (fst t)
                           (world s)) as [w [[]|e]]; reflexivity.
Qed.

(** The loops only add to the log and never touch the store. *)
Lemma dispatch_nix_frame (args : Namespace) (labels : Labels) ts :
  forall s, exists l',
    log (fst (dispatch_nix svc args labels ts s)) = log s ++ l'
    /\ heap (fst (dispatch_nix svc args labels ts s)) = heap s.
Proof.
  induction ts as [|t ts IH]; intros s.
  - exists []. simpl. now rewrite app_nil_r.
  - rewrite dispatch_nix_cons. cbv zeta.
    destruct (nix_write svc (snd t) labels (input_path args) (fst t) (world s))
      as [w [[]|e]].
    + destruct (IH (after_call s w (ENixWrite (snd t) (input_path args) (fst t))))
        as [l' [Hl Hh]].
      rewrite Hl, Hh. simpl. rewrite <- app_assoc. eauto.
    + destruct (decide (exn_cls e = ValueError)); [|simpl; eauto].
      destruct (exn_args e) as [|m rest]; [simpl; eauto|].
      match goal with |- context [dispatch_nix _ _ _ ts ?s1] =>
        destruct (IH s1) as [l' [Hl Hh]] end.
      rewrite Hl, Hh. simpl. rewrite <- !app_assoc. eauto.
Qed.

Lemma dispatch_h5_frame (args : Namespace) (labels : Labels) ts :
  forall s, exists l',
    log (fst (dispatch_h5 svc args labels ts s)) = log s ++ l'
    /\ heap (fst (dispatch_h5 svc args labels ts s)) = heap s.
Proof.
  induction ts as [|t ts IH]; intros s.
  - exists []. simpl. now rewrite app_nil_r.
  - rewrite dispatch_h5_cons. cbv zeta.
    destruct (write_analysis svc labels (snd t) (input_path args) true (fst t)
                             (world s)) as [w [[]|e]]; [|simpl; eauto].
    match goal with |- context [dispatch_h5 _ _ _ ts ?s1] =>
      destruct (IH s1) as [l' [Hl Hh]] end.
    rewrite Hl, Hh. simpl. rewrite <- app_assoc. eauto.
Qed.

(** The loop calls the writer on its first target whatever the state. *)
Lemma dispatch_nix_head_attempted (args : Namespace) (labels : Labels) t ts s :
  In (ENixWrite (snd t) (input_path args) (fst t))
     (log (fst (dispatch_nix svc args labels (t :: ts) s))).
Proof.
  rewrite dispatch_nix_cons. cbv zeta.
  destruct (nix_write svc (snd t) labels (input_path args) (fst t) (world s))
    as [w [[]|e]].
  - match goal with |- context [dispatch_nix _ _ _ ts ?s1] =>
      destruct (dispatch_nix_frame args labels ts s1) as [l' [Hl _]] end.
    rewrite Hl. simpl. rewrite !in_app_iff. simpl. tauto.
  - destruct (decide (exn_cls e = ValueError));
      [|simpl; rewrite in_app_iff; simpl; tauto].
    destruct (exn_args e) as [|m rest];
      [simpl; rewrite in_app_iff; simpl; tauto|].
    match goal with |- context [dispatch_nix _ _ _ ts ?s1] =>
      destruct (dispatch_nix_frame args labels ts s1) as [l' [Hl _]] end.
    rewrite Hl. simpl. rewrite !in_app_iff. simpl. tauto.
Qed.

End DispatchFacts.

Section FailureIsolation.
Context {World : Type} (svc : Services World).
Implicit Types (s : state World) (t : Video * string).

Lemma dispatch_nix_app (args : Namespace) (labels : Labels) pre post s :
  dispatch_nix svc args labels (pre ++ post) s
  = match dispatch_nix svc args labels pre s with
    | (s1, Ok _) => dispatch_nix svc args labels post s1
    | (s1, Raise e) => (s1, Raise e)
    end.
Proof. unfold dispatch_nix. apply for_each_app. Qed.

Lemma dispatch_nix_all_attempted (args : Namespace) (labels : Labels) :
  nix_fails_softly svc args labels ->
  forall ts s, exists s',
    dispatch_nix svc args labels ts s = (s', Ok tt)
    /\ attempts (log s') = attempts (log s) ++ ts.
Proof.
  intros Hsoft. induction ts as [|[v o] ts IH]; intros s.
  - exists s. split; [reflexivity|]. now rewrite app_nil_r.
  - rewrite dispatch_nix_cons. cbv zeta. simpl fst. simpl snd.
    specialize (Hsoft o v (world s)).
    destruct (nix_write svc o labels (input_path args) v (world s))
      as [w [[]|e]].
    + match goal with |- context [dispatch_nix _ _ _ ts ?s1] =>
        destruct (IH s1) as [s' [Hrun Hatt]] end.
      exists s'. split; [exact Hrun|]. rewrite Hatt. simpl.
      rewrite attempts_app. simpl. now rewrite <- app_assoc.
    + destruct Hsoft as [Hcls Hargs]. rewrite decide_True by exact Hcls.
      destruct (exn_args e) as [|m rest]; [congruence|].
      match goal with |- context [dispatch_nix _ _ _ ts ?s1] =>
        destruct (IH s1) as [s' [Hrun Hatt]] end.
      exists s'. split; [exact Hrun|]. rewrite Hatt. simpl.
      rewrite !attempts_app. simpl. now rewrite app_nil_r, <- app_assoc.
Qed.

Lemma dispatch_h5_app (args : Namespace) (labels : Labels) pre post s :
  dispatch_h5 svc args labels (pre ++ post) s
  = match dispatch_h5 svc args labels pre s with
    | (s1, Ok _) => dispatch_h5 svc args labels post s1
    | (s1, Raise e) => (s1, Raise e)
    end.
Proof. unfold dispatch_h5. apply for_each_app. Qed.

(** The HDF5 loop stops at the first target whose writer raises: the
    targets before it ran through, the loop ends in the state right after
    the failing call, with the error of that call. *)
Lemma dispatch_h5_stops_at_failure (args : Namespace) (labels : Labels) :
  forall ts s, exists s' r done rest,
    dispatch_h5 svc args labels ts s = (s', r)
    /\ ts = done ++ rest
    /\ attempts (log s') = attempts (log s) ++ done
    /\ match r with
       | Ok _ => rest = []
       | Raise e =>
           exists done' t sb w,
             done = done' ++ [t]
             /\ dispatch_h5 svc args labels done' s = (sb, Ok tt)
             /\ write_analysis svc labels (snd t) (input_path args) true
                               (fst t) (world sb) = (w, Raise e)
             /\ s' = after_call sb w
                       (EWriteAnalysis (snd t) (input_path args) true (fst t))
       end.
Proof.
  induction ts as [|[v o] ts IH]; intros s.
  - exists s, (Ok tt), [], []. repeat split. now rewrite app_nil_r.
  - rewrite dispatch_h5_cons. cbv zeta. simpl fst. simpl snd.
    destruct (write_analysis svc labels o (input_path args) true v (world s))
      as [w [[]|e]] eqn:Hw.
    + match goal with |- context [dispatch_h5 _ _ _ ts ?s1] =>
        destruct (IH s1) as (s' & r & done & rest & Hrun & Hts & Hatt & Hr) end.
      exists s', r, ((v, o) :: done), rest.
      split; [exact Hrun|]. split; [now rewrite Hts|].
      split.
      { rewrite Hatt. simpl. rewrite attempts_app. simpl.
        now rewrite <- app_assoc. }
      destruct r as [[]|e]; [exact Hr|].
      destruct Hr as (done' & t & sb & w' & Hdone & Hpre & Hraise & Hs').
      exists ((v, o) :: done'), t, sb, w'. split; [now rewrite Hdone|].
      split; [|split; [exact Hraise|exact Hs']].
      change ((v, o) :: done') with ([(v, o)] ++ done').
      rewrite dispatch_h5_app, dispatch_h5_cons. cbv zeta. simpl fst.
      simpl snd. rewrite Hw. exact Hpre.
    + eexists _, (Raise e), [(v, o)], ts. split; [reflexivity|].
      split; [reflexivity|]. split.
      { simpl. rewrite attempts_app. reflexivity. }
      exists [], (v, o), s, w. repeat split. exact Hw.
Qed.

(** A writer that raises ends the HDF5 loop at once, with its error. *)
Lemma dispatch_h5_raise_stops (args : Namespace) (labels : Labels)
    pre t post s sb (w : World) (e : exn) :
  dispatch_h5 svc args labels pre s = (sb, Ok tt) ->
  write_analysis svc labels (snd t) (input_path args) true (fst t) (world sb)
  = (w, Raise e) ->
  dispatch_h5 svc args labels (pre ++ t :: post) s
  = (after_call sb w (EWriteAnalysis (snd t) (input_path args) true (fst t)),
     Raise e)
  /\ attempts (log (after_call sb w
                      (EWriteAnalysis (snd t) (input_path args) true (fst t))))
     = attempts (log s) ++ pre ++ [t].
Proof.
  intros Hpre Hw. split.
  - rewrite dispatch_h5_app, Hpre, dispatch_h5_cons. cbv zeta. now rewrite Hw.
  - destruct (dispatch_h5_stops_at_failure args labels pre s)
      as (s' & r & done & rest & Hrun & Hts & Hatt & Hr).
    rewrite Hpre in Hrun. injection Hrun as <- <-. subst rest.
    rewrite app_nil_r in Hts. subst done.
    simpl. rewrite attempts_app, Hatt. destruct t. simpl.
    now rewrite <- app_assoc.
Qed.

(** C4: in a NIX export, once the targets before [(v, o)] are through, a
    value error raised by the writer on [(v, o)] is caught, its first
    argument printed and the loop goes on with the targets after it, of
    which the next one is attempted.  A value error with no argument makes
    the handler itself fail, and an error of any other class leaves the loop
    at once. *)
Theorem dispatch_nix_value_error_caught (args : Namespace) (labels : Labels)
    (pre post : list (Video * string)) (v : Video) (o : string)
    s s1 (w2 : World) (e : exn) :
  dispatch_nix svc args labels pre s = (s1, Ok tt) ->
  nix_write svc o labels (input_path args) v (world s1) = (w2, Raise e) ->
  let called := after_call s1 w2 (ENixWrite o (input_path args) v) in
  let run := dispatch_nix svc args labels (pre ++ (v, o) :: post) s in
  match decide (exn_cls e = ValueError), exn_args e with
  | left _, m :: _ =>
      run = dispatch_nix svc args labels post (after_call called w2 (EPrint m))
      /\ In (EPrint m) (log (fst run))
      /\ match post with
         | [] => True
         | t' :: _ =>
             In (ENixWrite (snd t') (input_path args) (fst t')) (log (fst run))
         end
  | left _, [] =>
      run = (called, Raise (mkExn IndexError ["tuple index out of range"]))
  | right _, _ => run = (called, Raise e)
  end.
Proof.
  intros Hpre Hw called run.
  assert (Hrun : run = dispatch_nix svc args labels ((v, o) :: post) s1).
  { unfold run. now rewrite dispatch_nix_app, Hpre. }
  rewrite dispatch_nix_cons in Hrun. cbv zeta in Hrun. simpl fst in Hrun.
  simpl snd in Hrun. rewrite Hw in Hrun.
  destruct (decide (exn_cls e = ValueError)) as [Hcls|Hcls];
    [|exact Hrun].
  destruct (exn_args e) as [|m rest]; [exact Hrun|].
  split; [exact Hrun|]. rewrite Hrun. split.
  - match goal with |- context [dispatch_nix _ _ _ post ?s2] =>
      destruct (dispatch_nix_frame svc args labels post s2) as [l' [Hl _]] end.
    rewrite Hl. simpl. rewrite !in_app_iff. simpl. tauto.
  - destruct post as [|t' post']; [exact I|].
    apply dispatch_nix_head_attempted.
Qed.

(** C3, as the code has it: isolation of failures is a property of the NIX
    loop and of value errors carrying a message.  When these are the only
    failures of the NIX writer, every planned target is attempted and the
    export ends normally.  An HDF5 export attempts its targets in order;
    as soon as the writer raises on one of them, the export ends with that
    error in the state right after that call, and the targets behind it are
    not attempted: the writer calls are those of the targets up to the
    failing one.  Without a raising writer all targets are attempted. *)
Theorem export_analysis_failure_isolation (args : Namespace)
    (labels : Labels) s (explicit : list string) :
  heap s !! outputs args = Some explicit ->
  exists s1 targets,
    plan_targets args labels s = (s1, Ok targets)
    /\ if PyStr.contains "nix" (format args) then
         nix_fails_softly svc args labels ->
         exists s',
           export_analysis svc args labels s = (s', Ok tt)
           /\ attempts (log s') = attempts (log s) ++ targets
       else
         (forall pre t post sb w e,
            targets = pre ++ t :: post ->
            dispatch_h5 svc args labels pre s1 = (sb, Ok tt) ->
            write_analysis svc labels (snd t) (input_path args) true (fst t)
                           (world sb) = (w, Raise e) ->
            let failed :=
              after_call sb w
                (EWriteAnalysis (snd t) (input_path args) true (fst t)) in
            export_analysis svc args labels s = (failed, Raise e)
            /\ attempts (log failed) = attempts (log s) ++ pre ++ [t])
         /\ exists s' r done rest,
              export_analysis svc args labels s = (s', r)
              /\ targets = done ++ rest
              /\ attempts (log s') = attempts (log s) ++ done
              /\ match r with
                 | Ok _ => rest = []
                 | Raise e =>
                     exists done' t sb w,
                       done = done' ++ [t]
                       /\ dispatch_h5 svc args labels done' s1 = (sb, Ok tt)
                       /\ write_analysis svc labels (snd t) (input_path args)
                                         true (fst t) (world sb) = (w, Raise e)
                       /\ s' = after_call sb w
                                 (EWriteAnalysis (snd t) (input_path args) true
                                                 (fst t))
                 end.
Proof.
  intros Hout.
  destruct (plan_targets_run args labels s explicit Hout) as [ps [_ Hplan]].
  eexists _, _. split; [exact Hplan|].
  unfold export_analysis.
  destruct (PyStr.contains "nix" (format args)); unfold bind; rewrite Hplan.
  - intros Hsoft.
    edestruct (dispatch_nix_all_attempted args labels Hsoft)
      as [s' [Hrun Hatt]].
    exists s'. split; [exact Hrun|exact Hatt].
  - split.
    + intros pre t post sb w e Hts Hpre Hw. cbv zeta. rewrite Hts.
      exact (dispatch_h5_raise_stops args labels pre t post _ sb w e Hpre Hw).
    + edestruct (dispatch_h5_stops_at_failure args labels)
        as (s' & r & done & rest & Hrun & Hts & Hatt & Hr).
      exists s', r, done, rest. split; [exact Hrun|].
      split; [exact Hts|]. split; [exact Hatt|exact Hr].
Qed.

End FailureIsolation.

(** ** Import *)

Section ImportFacts.
Context {World : Type} (svc : Services World).
Implicit Types (s : state World).

Lemma import_labels_run (args : Namespace) s :
  let ip := input_path args in
  let dir := PyStr.dirname ip in
  import_labels svc args s
  = match load_file svc ip dir (world s) with
    | (w1, r) =>
        let loaded := after_call s w1 (ELoadFile ip dir) in
        if falls_back r then
          match read svc ip dir (video_hint args) w1 with
          | (w2, r2) =>
              (after_call (after_call loaded w1 (EPrint notice_fallback)) w2
                          (ERead ip dir (video_hint args)), r2)
          end
        else (loaded, r)
    end.
Proof.
  cbv zeta. unfold import_labels, try_except, call.
  destruct (load_file svc (input_path args) (PyStr.dirname (input_path args))
                      (world s)) as [w1 [labels|e]]; [reflexivity|].
  unfold falls_back. destruct (decide (exn_cls e = TypeError)) as [H|H].
  - rewrite bool_decide_true by exact H. unfold bind, print, emit. simpl.
    fold (video_hint args).
    destruct (read svc (input_path args) (PyStr.dirname (input_path args))
                   (video_hint args) w1); reflexivity.
  - rewrite bool_decide_false by exact H. reflexivity.
Qed.

(** Importing writes nothing and leaves the store alone. *)
Lemma import_labels_frame (args : Namespace) s :
  heap (fst (import_labels svc args s)) = heap s
  /\ attempts (log (fst (import_labels svc args s))) = attempts (log s)
  /\ saves (log (fst (import_labels svc args s))) = saves (log s).
Proof.
  rewrite import_labels_run. cbv zeta.
  destruct (load_file svc _ _ _) as [w1 r].
  destruct (falls_back r).
  - destruct (read svc _ _ _ _) as [w2 r2]. simpl.
    rewrite !attempts_app, !saves_app. simpl. now rewrite !app_nil_r.
  - simpl. rewrite !attempts_app, !saves_app. simpl. now rewrite !app_nil_r.
Qed.

(** C5: the native loader is called first.  The notice and the call of the
    generic reader, with the video hint, follow exactly when the loader
    raised a [TypeError]; the outcome is then the reader's.  Otherwise the
    outcome is the loader's own, and an error among them leaves [main]
    unchanged with nothing further done. *)
Theorem import_labels_fallback_on_type_error (args : Namespace) s :
  let ip := input_path args in
  let dir := PyStr.dirname ip in
  let hint := if String.eqb (video args) EmptyString then None
              else Some (video args) in
  let first := load_file svc ip dir (world s) in
  let second := read svc ip dir hint (fst first) in
  let imported := import_labels svc args s in
  log (fst imported)
  = log s ++ ELoadFile ip dir ::
      (if falls_back (snd first)
       then [EPrint notice_fallback; ERead ip dir hint] else [])
  /\ snd imported = (if falls_back (snd first) then snd second else snd first)
  /\ world (fst imported)
     = (if falls_back (snd first) then fst second else fst first)
  /\ match snd first with
     | Raise e =>
         if falls_back (snd first) then True
         else main svc args s
              = (after_call s (fst first) (ELoadFile ip dir), Raise e)
     | Ok _ => True
     end.
Proof.
  cbv zeta. fold (video_hint args).
  pose proof (import_labels_run args s) as Hrun. cbv zeta in Hrun.
  unfold main, bind. rewrite Hrun.
  destruct (load_file svc _ _ _) as [w1 r]. simpl fst. simpl snd.
  destruct (falls_back r) eqn:Hfb.
  - destruct (read svc _ _ _ _) as [w2 r2]. simpl.
    rewrite <- !app_assoc. simpl. repeat split. now destruct r.
  - simpl. repeat split. destruct r; [exact I|reflexivity].
Qed.

End ImportFacts.


(** ** Native save, empty selections and the explicit list *)

Section MainFacts.
Context {World : Type} (svc : Services World).
Implicit Types (s : state World).

Lemma save_native_run (args : Namespace) (labels : Labels) s
    (explicit : list string) :
  heap s !! outputs args = Some explicit ->
  save_native svc args labels s
  = match native_target args explicit with
    | Some path =>
        let announced :=
          after_call s (world s) (EPrint ("Output SLEAP dataset: " +:+ path)) in
        match save_file svc labels path (world s) with
        | (w, r) => (after_call announced w (ESaveFile path), r)
        end
    | None =>
        (after_call (after_call s (world s) (EPrint notice_no_conversion))
                    (world s) (EPrintArgs args), Ok tt)
    end.
Proof.
  intros Hout. unfold save_native, native_target, is_native_format.
  unfold bind at 1. unfold read_list. rewrite Hout.
  destruct explicit as [|first rest].
  - destruct (existsb (String.eqb (format args)) ["slp"; "h5"; "json"]).
    + unfold bind, print, emit, call. simpl.
      destruct (save_file svc labels _ (world s)); reflexivity.
    + reflexivity.
  - unfold bind, print, emit, call. simpl.
    destruct (save_file svc labels first (world s)); reflexivity.
Qed.

(** C6, as the code has it: when the format does not contain ["analysis"]
    and the project was imported, the saver is called once on the first
    explicit path if there is one, else once on the input path followed by a
    dot and the format if the format is ["slp"], ["h5"] or ["json"]; with any
    other format and no explicit path nothing is saved, a notice and the
    arguments are printed, and the invocation ends normally.  No analysis
    writer is called in any of the three cases. *)
Theorem main_native_save (args : Namespace) (labels : Labels) s s1
    (explicit : list string) :
  heap s !! outputs args = Some explicit ->
  PyStr.contains "analysis" (format args) = false ->
  import_labels svc args s = (s1, Ok labels) ->
  let final := main svc args s in
  attempts (log (fst final)) = attempts (log s)
  /\ match explicit with
     | first :: _ =>
         saves (log (fst final)) = saves (log s) ++ [first]
         /\ snd final = snd (save_file svc labels first (world s1))
     | [] =>
         if existsb (String.eqb (format args)) ["slp"; "h5"; "json"] then
           let path := input_path args +:+ "." +:+ format args in
           saves (log (fst final)) = saves (log s) ++ [path]
           /\ snd final = snd (save_file svc labels path (world s1))
         else
           saves (log (fst final)) = saves (log s)
           /\ final
              = (mkState (world s1) (heap s1)
                   (log s1 ++ [EPrint notice_no_conversion; EPrintArgs args]),
                 Ok tt)
     end.
Proof.
  intros Hout Hfmt Himp final.
  destruct (import_labels_frame svc args s) as (Hheap & Hatt & Hsav).
  rewrite Himp in Hheap, Hatt, Hsav. simpl in Hheap, Hatt, Hsav.
  assert (Hfinal : final = save_native svc args labels s1).
  { unfold final, main, bind. now rewrite Himp, Hfmt. }
  rewrite Hfinal. rewrite (save_native_run args labels s1 explicit)
    by (rewrite Hheap; exact Hout).
  unfold native_target, is_native_format.
  destruct explicit as [|first rest].
  - destruct (existsb (String.eqb (format args)) ["slp"; "h5"; "json"]).
    + cbv zeta. destruct (save_file svc labels _ (world s1)) as [w r]. simpl.
      rewrite !attempts_app, !saves_app, Hatt, Hsav. simpl.
      rewrite !app_nil_r. repeat split.
    + simpl. rewrite !attempts_app, !saves_app, Hatt, Hsav. simpl.
      rewrite !app_nil_r. unfold after_call. simpl.
      rewrite <- app_assoc. repeat split.
  - cbv zeta. destruct (save_file svc labels first (world s1)) as [w r]. simpl.
    rewrite !attempts_app, !saves_app, Hatt, Hsav. simpl.
    rewrite !app_nil_r. repeat split.
Qed.

(** C9: when the video filter is not empty and no video of the project has
    it in its backing file name, the selection is empty, the planner returns
    no target, and [main] ends normally right after planning: nothing is
    logged after the import, so no writer is called, and the world is as the
    import left it. *)
Theorem main_filter_without_match (args : Namespace) (labels : Labels) s s1
    (explicit : list string) :
  heap s !! outputs args = Some explicit ->
  PyStr.contains "analysis" (format args) = true ->
  import_labels svc args s = (s1, Ok labels) ->
  video args <> EmptyString ->
  (forall v, In v (videos labels) ->
             PyStr.contains (video args) (backend_filename v) = false) ->
  select_videos args labels = []
  /\ (exists s2, plan_targets args labels s1 = (s2, Ok []))
  /\ exists s', main svc args s = (s', Ok tt)
       /\ log s' = log s1
       /\ world s' = world s1
       /\ attempts (log s') = attempts (log s).
Proof.
  intros Hout Hfmt Himp Hvideo Hnone.
  assert (Hsel : select_videos args labels = []).
  { unfold select_videos. destruct (video args) as [|c rest]; [congruence|].
    simpl String.length. simpl Nat.ltb. now apply first_match_none. }
  destruct (import_labels_frame svc args s) as (Hheap & Hatt & _).
  rewrite Himp in Hheap, Hatt. simpl in Hheap, Hatt.
  destruct (plan_targets_run args labels s1 explicit) as [ps [_ Hplan]];
    [rewrite Hheap; exact Hout|].
  rewrite Hsel in Hplan. simpl combine in Hplan.
  split; [exact Hsel|]. split; [eexists; exact Hplan|].
  eexists. split.
  - unfold main. unfold bind at 1. rewrite Himp, Hfmt.
    unfold export_analysis. unfold bind at 1. rewrite Hplan.
    destruct (PyStr.contains "nix" (format args)); reflexivity.
  - simpl. repeat split. exact Hatt.
Qed.

(** C10: [main] leaves the explicit output list, and every other list that
    existed before, as it found it; the list the planner appends to is an
    object of its own. *)
Theorem main_keeps_explicit_outputs (args : Namespace) s
    (explicit : list string) :
  heap s !! outputs args = Some explicit ->
  heap (fst (main svc args s)) !! outputs args = Some explicit
  /\ (forall l xs, heap s !! l = Some xs ->
                   heap (fst (main svc args s)) !! l = Some xs)
  /\ fresh (dom (heap s)) <> outputs args.
Proof.
  intros Hout.
  assert (Hfresh : forall l xs, heap s !! l = Some xs ->
                                fresh (dom (heap s)) <> l).
  { intros l xs Hl Heq. apply (is_fresh (dom (heap s))). rewrite Heq.
    apply elem_of_dom. eauto. }
  assert (Hall : forall l xs, heap s !! l = Some xs ->
                   heap (fst (main svc args s)) !! l = Some xs).
  { intros l xs Hl.
    destruct (import_labels_frame svc args s) as (Hheap & _ & _).
    unfold main. unfold bind at 1.
    destruct (import_labels svc args s) as [s1 [labels|e]]; simpl in Hheap;
      [|simpl; now rewrite Hheap].
    destruct (PyStr.contains "analysis" (format args)).
    - destruct (plan_targets_run args labels s1 explicit) as [ps [_ Hplan]];
        [rewrite Hheap; exact Hout|].
      unfold export_analysis. unfold bind at 1. rewrite Hplan.
      destruct (PyStr.contains "nix" (format args)).
      + edestruct (dispatch_nix_frame svc args labels) as [l' [_ Hh]].
        rewrite Hh. simpl. rewrite Hheap.
        rewrite lookup_insert_ne by (eapply Hfresh; exact Hl). exact Hl.
      + edestruct (dispatch_h5_frame svc args labels) as [l' [_ Hh]].
        rewrite Hh. simpl. rewrite Hheap.
        rewrite lookup_insert_ne by (eapply Hfresh; exact Hl). exact Hl.
    - rewrite (save_native_run args labels s1 explicit)
        by (rewrite Hheap; exact Hout).
      destruct (native_target args explicit); cbv zeta.
      + destruct (save_file svc labels _ (world s1)). simpl. now rewrite Hheap.
      + simpl. now rewrite Hheap. }
  split; [apply Hall; exact Hout|]. split; [exact Hall|].
  eapply Hfresh; exact Hout.
Qed.

End MainFacts.


(** ** Strings *)

Lemma append_nil_r (s : string) : s +:+ EmptyString = s.
Proof. induction s as [|c s' IH]; simpl; [reflexivity|now f_equal]. Qed.

Lemma append_assoc (a b c : string) : (a +:+ b) +:+ c = a +:+ (b +:+ c).
Proof. induction a as [|x a' IH]; simpl; [reflexivity|now f_equal]. Qed.

Lemma append_length (a b : string) :
  String.length (a +:+ b) = String.length a + String.length b.
Proof. induction a as [|x a' IH]; simpl; [reflexivity|now f_equal]. Qed.

Lemma append_cancel_l (a b c : string) : a +:+ b = a +:+ c -> b = c.
Proof.
  induction a as [|x a' IH]; simpl; [tauto|]. intros H. injection H as H.
  now apply IH.
Qed.

Lemma strip_prefix_Some (p s r : string) :
  PyStr.strip_prefix p s = Some r -> s = p +:+ r.
Proof.
  revert s. induction p as [|a p IH]; simpl; intros s H.
  - now injection H as ->.
  - destruct s as [|b s]; [discriminate|].
    destruct (Ascii.eqb_spec a b) as [->|]; [|discriminate].
    now rewrite (IH s H).
Qed.

Lemma endswith_append (q suf : string) : PyStr.endswith (q +:+ suf) suf = true.
Proof.
  induction q as [|c q IH]; simpl.
  - destruct suf; simpl; [reflexivity|].
    now rewrite Ascii.eqb_refl, String.eqb_refl.
  - rewrite IH. apply orb_true_r.
Qed.

(** ** The suffix substitution *)

Lemma at_dollar_true (r : string) :
  Re.at_dollar r = true -> r = EmptyString \/ r = newline_str.
Proof.
  destruct r as [|c [|d r]]; simpl; try discriminate; [now left|].
  intros H. apply Ascii.eqb_eq in H. subst. now right.
Qed.

(** A match at the current position is a recognized suffix, and what is left
    behind it is empty or one newline. *)
Lemma match_here_Some (s rest : string) :
  Re.match_here s = Some rest ->
  exists suf, In suf recognized_suffixes /\ s = suf +:+ rest
              /\ (rest = EmptyString \/ rest = newline_str).
Proof.
  unfold Re.match_here, recognized_suffixes. intros H.
  repeat match type of H with
    | context [PyStr.strip_prefix ?p ?x] =>
        let E := fresh "E" in
        destruct (PyStr.strip_prefix p x) eqn:E;
        [apply strip_prefix_Some in E|]
    | context [Re.at_dollar ?r] =>
        let D := fresh "D" in
        destruct (Re.at_dollar r) eqn:D; [apply at_dollar_true in D|]
    end;
  try discriminate H; injection H as <-; subst; simpl in *;
  try discriminate;
  try (match goal with D : _ \/ _ |- _ => destruct D; discriminate end);
  first [ exists ".json.zip"; split; [simpl; tauto|split; [reflexivity|assumption]]
        | exists ".json"; split; [simpl; tauto|split; [reflexivity|assumption]]
        | exists ".h5"; split; [simpl; tauto|split; [reflexivity|assumption]]
        | exists ".slp"; split; [simpl; tauto|split; [reflexivity|assumption]] ].
Qed.

Lemma sub_suffix_no_match (p : string) :
  (forall q x, p = q +:+ x -> Re.match_here x = None) ->
  Re.sub_suffix p = p.
Proof.
  induction p as [|c p IH]; intros H.
  - reflexivity.
  - cbn [Re.sub_suffix]. rewrite (H EmptyString (String c p) eq_refl).
    f_equal. apply IH. intros q x ->. apply (H (String c q) x). reflexivity.
Qed.

(** A path that ends neither in a recognized suffix nor in one followed by a
    newline is left as it is. *)
Lemma sub_suffix_unchanged (p : string) :
  ends_recognized p = false ->
  ends_recognized_newline p = false ->
  Re.sub_suffix p = p.
Proof.
  intros H1 H2. apply sub_suffix_no_match. intros q x ->.
  destruct (Re.match_here x) as [rest|] eqn:Hm; [|reflexivity]. exfalso.
  destruct (match_here_Some x rest Hm) as (suf & Hin & Hx & [Hr|Hr]); subst.
  - rewrite append_nil_r in H1.
    assert (ends_recognized (q +:+ suf) = true); [|congruence].
    apply existsb_exists. exists suf. split; [exact Hin|apply endswith_append].
  - assert (ends_recognized_newline (q +:+ suf +:+ newline_str) = true);
      [|congruence].
    apply existsb_exists. exists suf. split; [exact Hin|apply endswith_append].
Qed.

(** Inside a path that ends in a recognized suffix, the pattern matches
    nowhere before that suffix. *)
Lemma match_here_before_suffix (c : ascii) (p suf : string) :
  In suf recognized_suffixes ->
  Re.match_here (String c (p +:+ suf)) = None.
Proof.
  intros Hsuf.
  destruct (Re.match_here (String c (p +:+ suf))) as [rest|] eqn:Hm;
    [|reflexivity].
  exfalso.
  destruct (match_here_Some _ rest Hm) as (suf' & Hin' & Heq & Hrest).
  clear Hm. unfold recognized_suffixes, newline_str in *. simpl in Hsuf, Hin'.
  symmetry in Heq.
  destruct Hsuf as [<-|[<-|[<-|[<-|[]]]]];
    destruct Hin' as [<-|[<-|[<-|[<-|[]]]]];
    destruct Hrest as [->| ->]; peel_strings.
Qed.

(** Appending a recognized suffix and substituting gives the path back. *)
Lemma sub_suffix_appended (p suf : string) :
  In suf recognized_suffixes -> Re.sub_suffix (p +:+ suf) = p.
Proof.
  intros Hsuf. induction p as [|c p IH].
  - unfold recognized_suffixes in Hsuf. simpl in Hsuf.
    destruct Hsuf as [<-|[<-|[<-|[<-|[]]]]]; reflexivity.
  - change (String c p +:+ suf) with (String c (p +:+ suf)).
    cbn [Re.sub_suffix]. rewrite match_here_before_suffix by exact Hsuf.
    now rewrite IH.
Qed.

(** C8, as the code has it: for a path that ends neither in a recognized
    suffix nor in a recognized suffix followed by a newline, the substitution
    leaves the path alone and undoes the appending of any recognized suffix,
    so both give the same stem. *)
Theorem base_stem_suffix_appended (p suf : string) :
  ends_recognized p = false ->
  ends_recognized_newline p = false ->
  In suf recognized_suffixes ->
  Re.sub_suffix p = p
  /\ Re.sub_suffix (p +:+ suf) = p
  /\ base_stem (p +:+ suf) = base_stem p.
Proof.
  intros H1 H2 Hsuf.
  pose proof (sub_suffix_unchanged p H1 H2) as Hp.
  pose proof (sub_suffix_appended p suf Hsuf) as Hps.
  unfold base_stem. now rewrite Hp, Hps.
Qed.

Example base_stem_scenarios :
  base_stem "proj.slp" = "proj" /\ base_stem "d/data.json.zip" = "data"
  /\ base_stem "proj.v1.h5" = "proj".
Proof. repeat split. Qed.

(** ** Path components *)

Lemma no_slash_append (a b : string) :
  no_slash (a +:+ b) = no_slash a && no_slash b.
Proof.
  induction a as [|c a' IH]; simpl; [reflexivity|].
  now rewrite IH, andb_assoc.
Qed.

Lemma no_slash_substring (s : string) :
  no_slash s = true -> forall n m, no_slash (String.substring n m s) = true.
Proof.
  induction s as [|c s' IH]; intros H n m.
  - destruct n, m; reflexivity.
  - simpl in H. apply andb_true_iff in H as [Hc Hs].
    destruct n as [|n]; [destruct m as [|m]|]; simpl; [reflexivity| |].
    + rewrite Hc. now apply IH.
    + now apply IH.
Qed.

Lemma split_slash_no_slash (s : string) :
  Forall (fun x => no_slash x = true) (PyStr.split_slash s).
Proof.
  induction s as [|c s' IH]; simpl; [repeat constructor|].
  destruct (Ascii.eqb c "/") eqn:Hc; [constructor; [reflexivity|exact IH]|].
  destruct (PyStr.split_slash s') as [|x xs].
  - repeat constructor. simpl. now rewrite Hc.
  - inversion IH; subst. constructor; [|assumption]. simpl. now rewrite Hc.
Qed.

Lemma split_slash_single (x : string) :
  no_slash x = true -> PyStr.split_slash x = [x].
Proof.
  induction x as [|c x' IH]; simpl; [reflexivity|]. intros H.
  apply andb_true_iff in H as [Hc Hx]. apply negb_true_iff in Hc.
  now rewrite Hc, (IH Hx).
Qed.

Lemma split_slash_cons (x r : string) :
  no_slash x = true ->
  PyStr.split_slash (x +:+ String "/" r) = x :: PyStr.split_slash r.
Proof.
  induction x as [|c x' IH]; simpl; [reflexivity|]. intros H.
  apply andb_true_iff in H as [Hc Hx]. apply negb_true_iff in Hc.
  now rewrite Hc, (IH Hx).
Qed.

Lemma split_slash_concat (ps : list string) :
  ps <> [] ->
  Forall (fun x => no_slash x = true) ps ->
  PyStr.split_slash (String.concat "/" ps) = ps.
Proof.
  induction ps as [|x ps IH]; [congruence|]. intros _ H.
  inversion H as [|? ? Hx Hps]; subst.
  destruct ps as [|y ps]; [now apply split_slash_single|].
  change (String.concat "/" (x :: y :: ps))
    with (x +:+ String "/" (String.concat "/" (y :: ps))).
  rewrite split_slash_cons by exact Hx. f_equal. now apply IH.
Qed.

Lemma filter_keep_components (ps : list string) :
  Forall (fun x => component x = true) ps ->
  List.filter PurePath.keep_component ps = ps.
Proof.
  induction 1 as [|x ps Hx _ IH]; simpl; [reflexivity|].
  unfold component in Hx. apply andb_true_iff in Hx as [_ Hk].
  now rewrite Hk, IH.
Qed.

Lemma components_no_slash (ps : list string) :
  Forall (fun x => component x = true) ps ->
  Forall (fun x => no_slash x = true) ps.
Proof.
  apply List.Forall_impl. intros x H. unfold component in H.
  now apply andb_true_iff in H as [H _].
Qed.

Lemma split_filter_components (s : string) :
  Forall (fun x => component x = true)
         (List.filter PurePath.keep_component (PyStr.split_slash s)).
Proof.
  pose proof (split_slash_no_slash s) as H.
  induction H as [|x xs Hx _ IH]; simpl; [constructor|].
  destruct (PurePath.keep_component x) eqn:Hk; [|exact IH].
  constructor; [|exact IH]. unfold component. now rewrite Hx, Hk.
Qed.

Lemma splitroot_root (s : string) :
  In (fst (PurePath.splitroot s)) [EmptyString; "/"; "//"].
Proof.
  unfold PurePath.splitroot. destruct s as [|c s']; [simpl; tauto|].
  destruct (Ascii.eqb c "/"); [|simpl; tauto].
  cbv zeta. destruct (_ =? 2); simpl; tauto.
Qed.

Lemma make_single (s : string) :
  PurePath.make [s]
  = if String.eqb s EmptyString then PurePath.mk EmptyString []
    else PurePath.mk (fst (PurePath.splitroot s))
           (List.filter PurePath.keep_component
              (PyStr.split_slash (snd (PurePath.splitroot s)))).
Proof.
  unfold PurePath.make. simpl rev. cbn [PurePath.parse_rev].
  destruct (String.eqb s EmptyString); [reflexivity|].
  destruct (PurePath.splitroot s) as [rt rel]. simpl.
  destruct (String.eqb_spec rt EmptyString) as [->|]; reflexivity.
Qed.

Lemma make_single_wf (s : string) : wf_path (PurePath.make [s]).
Proof.
  rewrite make_single. destruct (String.eqb s EmptyString).
  - split; [simpl; tauto|constructor].
  - split; [apply splitroot_root|apply split_filter_components].
Qed.

Lemma Forall_removelast {A} (P : A -> Prop) (l : list A) :
  Forall P l -> Forall P (removelast l).
Proof.
  induction 1 as [|x l Hx Hl IH]; simpl; [constructor|].
  destruct l; [constructor|]. constructor; assumption.
Qed.

Lemma parent_wf (p : PurePath.t) : wf_path p -> wf_path (PurePath.parent p).
Proof.
  intros [Hr Hp]. split; [exact Hr|]. now apply Forall_removelast.
Qed.

Lemma name_no_slash (p : PurePath.t) :
  wf_path p -> no_slash (PurePath.name p) = true.
Proof.
  intros [_ Hp]. unfold PurePath.name.
  destruct (PurePath.parts p) as [|x l] eqn:E; [reflexivity|].
  apply components_no_slash in Hp.
  assert (Hin : In (List.last (x :: l) EmptyString) (x :: l)).
  { destruct (exists_last (l := x :: l)) as (l' & a & Ha); [congruence|].
    rewrite Ha, last_last. apply in_or_app. right. now left. }
  rewrite List.Forall_forall in Hp. now apply Hp.
Qed.

Lemma stem_no_slash (p : PurePath.t) :
  wf_path p -> no_slash (PurePath.stem p) = true.
Proof.
  intros Hwf. pose proof (name_no_slash p Hwf) as Hn. unfold PurePath.stem.
  destruct (PyStr.rfind "." (PurePath.name p)) as [i|]; [|exact Hn].
  destruct (_ && _); [|exact Hn]. now apply no_slash_substring.
Qed.

(** ** Parsing back the text of a path *)

Lemma component_head (x : string) :
  component x = true ->
  exists a r, x = String a r /\ Ascii.eqb a "/" = false.
Proof.
  unfold component, PurePath.keep_component. intros H.
  destruct x as [|a r]; [discriminate|]. simpl in H.
  exists a, r. split; [reflexivity|].
  destruct (Ascii.eqb a "/"); [discriminate|reflexivity].
Qed.

Lemma concat_head (ps : list string) :
  ps <> [] ->
  Forall (fun x => component x = true) ps ->
  exists a r, String.concat "/" ps = String a r /\ Ascii.eqb a "/" = false.
Proof.
  destruct ps as [|x l]; [congruence|]. intros _ H.
  inversion H as [|? ? Hx _]; subst.
  destruct (component_head x Hx) as (a & r & -> & Ha).
  destruct l as [|y l]; simpl; eauto.
Qed.

Lemma names_of_concat (ps : list string) :
  Forall (fun x => component x = true) ps ->
  List.filter PurePath.keep_component (PyStr.split_slash (String.concat "/" ps))
  = ps.
Proof.
  intros H. destruct ps as [|x l]; [reflexivity|].
  rewrite split_slash_concat; [|congruence|now apply components_no_slash].
  now apply filter_keep_components.
Qed.

Lemma lstrip_concat (ps : list string) :
  Forall (fun x => component x = true) ps ->
  PyStr.lstrip_slash (String.concat "/" ps) = String.concat "/" ps.
Proof.
  intros H. destruct ps as [|x l]; [reflexivity|].
  destruct (concat_head (x :: l)) as (a & r & -> & Ha); [congruence|exact H|].
  simpl. now rewrite Ha.
Qed.

Lemma parse_rooted (b : string) (ps : list string) (slashes : string) :
  PyStr.lstrip_slash b = b ->
  List.filter PurePath.keep_component (PyStr.split_slash b) = ps ->
  slashes = "/" \/ slashes = "//" ->
  PurePath.parse_rev [slashes +:+ b] = (slashes, ps).
Proof.
  intros Hl Hn Hs. cbn [PurePath.parse_rev].
  assert (Hlen : forall n, S n - n = 1 /\ S (S n) - n = 2) by (intros; lia).
  destruct Hs as [-> | ->]; simpl; rewrite Hl.
  - destruct (Hlen (String.length b)) as [-> _]. simpl. now rewrite Hn.
  - destruct (Hlen (String.length b)) as [_ ->]. simpl. now rewrite Hn.
Qed.

(** The text of a parsed path parses back to that path. *)
Lemma parse_str (q : PurePath.t) :
  wf_path q ->
  PurePath.parse_rev [PurePath.str q] = (PurePath.root q, PurePath.parts q).
Proof.
  destruct q as [rt ps]. intros [Hr Hp]. simpl in Hr, Hp. simpl PurePath.root.
  simpl PurePath.parts. unfold PurePath.str. simpl PurePath.root.
  simpl PurePath.parts.
  destruct Hr as [<-|[<-|[<-|[]]]].
  - destruct ps as [|x l]; [reflexivity|].
    destruct (concat_head (x :: l)) as (a & r & Hc & Ha); [congruence|exact Hp|].
    pose proof (names_of_concat (x :: l) Hp) as Hn.
    change (EmptyString +:+ String.concat "/" (x :: l))
      with (String.concat "/" (x :: l)).
    rewrite Hc in *. cbn [String.eqb PurePath.parse_rev PurePath.splitroot].
    rewrite Ha. cbn [String.eqb]. now rewrite Hn.
  - change (String.eqb ("/" +:+ String.concat "/" ps) EmptyString) with false.
    cbv iota. apply parse_rooted;
      [now apply lstrip_concat|now apply names_of_concat|now left].
  - change (String.eqb ("//" +:+ String.concat "/" ps) EmptyString) with false.
    cbv iota. apply parse_rooted;
      [now apply lstrip_concat|now apply names_of_concat|now right].
Qed.

Lemma str_not_empty (q : PurePath.t) :
  String.eqb (PurePath.str q) EmptyString = false.
Proof.
  unfold PurePath.str.
  destruct (String.eqb_spec (PurePath.root q +:+ String.concat "/" (PurePath.parts q))
                            EmptyString) as [_|Hne]; [reflexivity|].
  now apply String.eqb_neq.
Qed.

(** Joining a parsed directory and one more component. *)
Lemma make_dir_name (q : PurePath.t) (name : string) :
  wf_path q ->
  component name = true ->
  PurePath.make [PurePath.str q; name]
  = PurePath.mk (PurePath.root q) (PurePath.parts q ++ [name]).
Proof.
  intros Hq Hname. unfold PurePath.make. simpl rev.
  destruct (component_head name Hname) as (a & r & -> & Ha).
  assert (Hns : no_slash (String a r) = true).
  { unfold component in Hname. now apply andb_true_iff in Hname as [H _]. }
  assert (Hk : PurePath.keep_component (String a r) = true).
  { unfold component in Hname. now apply andb_true_iff in Hname as [_ H]. }
  change (PurePath.parse_rev [String a r; PurePath.str q])
    with (let '(rt, rel) := PurePath.splitroot (String a r) in
          let names := List.filter PurePath.keep_component
                         (PyStr.split_slash rel) in
          if String.eqb rt EmptyString then
            let '(rt', names') := PurePath.parse_rev [PurePath.str q] in
            (rt', names' ++ names)
          else (rt, names)).
  unfold PurePath.splitroot. rewrite Ha.
  rewrite split_slash_single by exact Hns. cbn [List.filter]. rewrite Hk.
  cbn [String.eqb]. now rewrite parse_str.
Qed.

(** ** The text of a joined path *)

Lemma concat_snoc (ps : list string) (x : string) :
  ps <> [] ->
  String.concat "/" (ps ++ [x]) = String.concat "/" ps +:+ "/" +:+ x.
Proof.
  induction ps as [|y ps IH]; [congruence|]. intros _.
  destruct ps as [|z ps]; [reflexivity|].
  change (String.concat "/" ((y :: z :: ps) ++ [x]))
    with (y +:+ "/" +:+ String.concat "/" ((z :: ps) ++ [x])).
  rewrite IH by congruence.
  change (String.concat "/" (y :: z :: ps))
    with (y +:+ "/" +:+ String.concat "/" (z :: ps)).
  now rewrite !append_assoc.
Qed.

Lemma concat_not_dot (ps : list string) :
  Forall (fun x => component x = true) ps ->
  String.eqb (String.concat "/" ps) "." = false.
Proof.
  intros H. destruct ps as [|x l]; [reflexivity|].
  inversion H as [|? ? Hx _]; subst.
  destruct l as [|y l].
  - simpl. unfold component, PurePath.keep_component in Hx.
    apply andb_true_iff in Hx as [_ Hx]. apply andb_true_iff in Hx as [_ Hx].
    now apply negb_true_iff in Hx.
  - destruct (component_head x Hx) as (a & r & -> & Ha).
    change (String.concat "/" (String a r :: y :: l))
      with (String a (r +:+ "/" +:+ String.concat "/" (y :: l))).
    cbn [String.eqb]. destruct r; simpl; apply andb_false_r.
Qed.

Lemma str_join (q : PurePath.t) (name : string) :
  wf_path q ->
  component name = true ->
  PurePath.str (PurePath.mk (PurePath.root q) (PurePath.parts q ++ [name]))
  = join_dir (PurePath.str q) name.
Proof.
  destruct q as [rt ps]. intros [Hr Hp] Hname. simpl in Hr, Hp.
  unfold PurePath.str. simpl PurePath.root. simpl PurePath.parts.
  destruct (component_head name Hname) as (a & r & -> & Ha).
  destruct ps as [|x l].
  - destruct Hr as [<-|[<-|[<-|[]]]]; reflexivity.
  - rewrite concat_snoc by congruence.
    pose proof (concat_not_dot (x :: l) Hp) as Hdot.
    destruct (concat_head (x :: l)) as (b & t & Hc & Hb); [congruence|exact Hp|].
    rewrite Hc in *. unfold join_dir.
    destruct Hr as [<-|[<-|[<-|[]]]]; cbn [String.append String.eqb] in *;
      rewrite ?Hb, ?Hdot; cbn [andb orb];
      rewrite ?append_assoc; reflexivity.
Qed.

(** ** The [:03] format *)

Lemma all_digits_no_slash (s : string) : all_digits s = true -> no_slash s = true.
Proof.
  induction s as [|c s' IH]; simpl; [reflexivity|]. intros H.
  apply andb_true_iff in H as [Hc Hs]. rewrite (IH Hs), andb_true_r.
  destruct (Ascii.eqb_spec c "/") as [->|]; [discriminate|reflexivity].
Qed.

Lemma all_digits_append (a b : string) :
  all_digits (a +:+ b) = all_digits a && all_digits b.
Proof.
  induction a as [|c a' IH]; simpl; [reflexivity|].
  now rewrite IH, andb_assoc.
Qed.

Lemma string_of_uint_digits (d : uint) :
  all_digits (NilEmpty.string_of_uint d) = true.
Proof. induction d; simpl; assumption || reflexivity. Qed.

Lemma replicate_zero_digits (n : nat) :
  all_digits (PyStr.replicate_char n "0") = true.
Proof. induction n as [|n IH]; simpl; [reflexivity|exact IH]. Qed.

Lemma format_03_digits (n : nat) : all_digits (PyStr.format_03 n) = true.
Proof.
  unfold PyStr.format_03, PyStr.str_of_nat. cbv zeta.
  now rewrite all_digits_append, replicate_zero_digits, string_of_uint_digits.
Qed.

Lemma of_uint_zeros (n : nat) (d : uint) :
  Nat.of_uint (zeros n d) = Nat.of_uint d.
Proof. induction n as [|n IH]; simpl; [reflexivity|exact IH]. Qed.

Lemma uint_of_replicate_zero (n : nat) (s : string) :
  NilEmpty.uint_of_string (PyStr.replicate_char n "0" +:+ s)
  = option_map (zeros n) (NilEmpty.uint_of_string s).
Proof.
  induction n as [|n IH]; simpl.
  - now destruct (NilEmpty.uint_of_string s).
  - rewrite IH. now destruct (NilEmpty.uint_of_string s).
Qed.

Lemma read_format_03 (n : nat) : read_decimal (PyStr.format_03 n) = Some n.
Proof.
  unfold read_decimal, PyStr.format_03, PyStr.str_of_nat. cbv zeta.
  rewrite uint_of_replicate_zero, NilEmpty.usu. simpl.
  now rewrite of_uint_zeros, DecimalNat.Unsigned.of_to.
Qed.

Lemma format_03_inj (n m : nat) : PyStr.format_03 n = PyStr.format_03 m -> n = m.
Proof.
  intros H. pose proof (read_format_03 n) as Hn. rewrite H, read_format_03 in Hn.
  now injection Hn.
Qed.

Lemma format_03_width (n : nat) : 3 <= String.length (PyStr.format_03 n).
Proof.
  unfold PyStr.format_03. cbv zeta. rewrite append_length.
  assert (H : forall k, String.length (PyStr.replicate_char k "0") = k).
  { induction k as [|k IH]; simpl; [reflexivity|now rewrite IH]. }
  rewrite H. lia.
Qed.

(** Digits followed by an underscore: the digits are determined by the
    whole. *)
Lemma digits_underscore_inj (a b r1 r2 : string) :
  all_digits a = true -> all_digits b = true ->
  a +:+ String "_" r1 = b +:+ String "_" r2 -> a = b /\ r1 = r2.
Proof.
  revert b. induction a as [|c a' IH]; intros [|d b'] Ha Hb H; simpl in *.
  - now injection H.
  - injection H as <- _. discriminate.
  - injection H as -> _. discriminate.
  - injection H as -> H. apply andb_true_iff in Ha as [_ Ha].
    apply andb_true_iff in Hb as [_ Hb].
    destruct (IH b' Ha Hb H) as [-> ->]. now split.
Qed.

(** ** Default names *)

Lemma long_keep_component (x : string) :
  2 <= String.length x -> PurePath.keep_component x = true.
Proof.
  destruct x as [|a [|b r]]; simpl; try lia. intros _.
  unfold PurePath.keep_component. simpl.
  now destruct (Ascii.eqb a ".").
Qed.

Lemma analysis_name_component (pre : string) (idx : nat) (vstem suf : string) :
  no_slash pre = true -> no_slash vstem = true -> no_slash suf = true ->
  component (analysis_name pre idx vstem suf) = true.
Proof.
  intros Hp Hv Hs. unfold component, analysis_name. apply andb_true_iff. split.
  - rewrite !no_slash_append, Hp, Hv, Hs.
    rewrite (all_digits_no_slash _ (format_03_digits idx)). reflexivity.
  - apply long_keep_component. rewrite !append_length.
    pose proof (format_03_width idx). simpl. lia.
Qed.

Lemma out_suffix_no_slash (fmt : string) : no_slash (out_suffix_of fmt) = true.
Proof. unfold out_suffix_of. now destruct (PyStr.contains "nix" fmt). Qed.

(** What [default_analysis_filename] returns on a parsed directory. *)
Lemma default_analysis_filename_value (labels : Labels) (v : Video)
    (q : PurePath.t) (pre suf : string) (idx : nat) :
  wf_path q -> no_slash pre = true -> no_slash suf = true ->
  list_index v (videos labels) = Some idx ->
  default_analysis_filename labels v (PurePath.str q) pre suf
  = Ok (join_dir (PurePath.str q)
          (analysis_name pre idx
             (PurePath.stem (PurePath.make [backend_filename v])) suf)).
Proof.
  intros Hq Hp Hs Hidx. unfold default_analysis_filename. rewrite Hidx.
  f_equal. fold (analysis_name pre idx
                   (PurePath.stem (PurePath.make [backend_filename v])) suf).
  assert (Hc : component (analysis_name pre idx
                 (PurePath.stem (PurePath.make [backend_filename v])) suf)
               = true).
  { apply analysis_name_component; try assumption.
    apply stem_no_slash, make_single_wf. }
  rewrite make_dir_name by assumption. now apply str_join.
Qed.

Lemma join_dir_inj (dir n1 n2 : string) :
  join_dir dir n1 = join_dir dir n2 -> n1 = n2.
Proof.
  unfold join_dir. destruct (String.eqb dir "."); [tauto|].
  destruct (String.eqb dir "/" || String.eqb dir "//"); intros H.
  - now apply append_cancel_l in H.
  - apply append_cancel_l in H. now apply (append_cancel_l "/") in H.
Qed.

Lemma analysis_name_inj (pre suf v1 v2 : string) (i j : nat) :
  analysis_name pre i v1 suf = analysis_name pre j v2 suf -> i = j.
Proof.
  unfold analysis_name. intros H. apply append_cancel_l in H.
  apply (append_cancel_l ".") in H.
  apply digits_underscore_inj in H; try apply format_03_digits.
  destruct H as [H _]. now apply format_03_inj.
Qed.

(** Two videos of the project with the same default path are the same
    video. *)
Lemma default_analysis_filename_inj (labels : Labels) (v v' : Video)
    (q : PurePath.t) (pre suf p : string) :
  wf_path q -> no_slash pre = true -> no_slash suf = true ->
  default_analysis_filename labels v (PurePath.str q) pre suf = Ok p ->
  default_analysis_filename labels v' (PurePath.str q) pre suf = Ok p ->
  v = v'.
Proof.
  intros Hq Hp Hs H1 H2.
  destruct (list_index v (videos labels)) as [i|] eqn:Hi;
    [|unfold default_analysis_filename in H1; now rewrite Hi in H1].
  destruct (list_index v' (videos labels)) as [j|] eqn:Hj;
    [|unfold default_analysis_filename in H2; now rewrite Hj in H2].
  rewrite (default_analysis_filename_value labels v q pre suf i) in H1
    by assumption.
  rewrite (default_analysis_filename_value labels v' q pre suf j) in H2
    by assumption.
  rewrite <- H2 in H1. injection H1 as H1.
  apply join_dir_inj, analysis_name_inj in H1. subst j.
  apply list_index_spec in Hi as [Hi _]. apply list_index_spec in Hj as [Hj _].
  congruence.
Qed.

Lemma naming_of_wf (args : Namespace) :
  let '(dir, pre, suf) := naming_of args in
  (exists q, wf_path q /\ dir = PurePath.str q)
  /\ no_slash pre = true /\ no_slash suf = true.
Proof.
  unfold naming_of. cbv zeta. split; [|split].
  - eexists. split; [|reflexivity]. apply parent_wf, make_single_wf.
  - apply stem_no_slash, make_single_wf.
  - apply out_suffix_no_slash.
Qed.



Lemma make_str (q : PurePath.t) : wf_path q -> PurePath.make [PurePath.str q] = q.
Proof.
  intros Hq. unfold PurePath.make. simpl rev. rewrite parse_str by exact Hq.
  now destruct q.
Qed.

Lemma wf_path_snoc (q : PurePath.t) (x : string) :
  wf_path q -> component x = true ->
  wf_path (PurePath.mk (PurePath.root q) (PurePath.parts q ++ [x])).
Proof.
  intros [Hr Hp] Hx. split; [exact Hr|]. simpl.
  apply Forall_app. split; [exact Hp|]. now constructor.
Qed.


Section DefaultPaths.
Context {World : Type}.
Implicit Types (s : state World).


End DefaultPaths.

(** ** Distinct output paths *)

Lemma NoDup_skipn {A} (n : nat) (l : list A) : List.NoDup l -> List.NoDup (skipn n l).
Proof.
  intros H. rewrite <- (firstn_skipn n l) in H.
  now apply List.NoDup_app_remove_l in H.
Qed.

Lemma NoDup_firstn {A} (n : nat) (l : list A) : List.NoDup l -> List.NoDup (firstn n l).
Proof.
  intros H. rewrite <- (firstn_skipn n l) in H.
  now apply List.NoDup_app_remove_r in H.
Qed.

Lemma in_firstn {A} (n : nat) (l : list A) (x : A) : In x (firstn n l) -> In x l.
Proof.
  intros H. rewrite <- (firstn_skipn n l). apply in_or_app. now left.
Qed.

Lemma Forall2_NoDup {A B} (R : A -> B -> Prop) (xs : list A) (ys : list B) :
  Forall2 R xs ys ->
  (forall x x' y, R x y -> R x' y -> x = x') ->
  List.NoDup xs -> List.NoDup ys.
Proof.
  intros H Hinj. induction H as [|x y xs ys Hxy Hrest IH]; intros Hnd.
  - constructor.
  - inversion Hnd as [|? ? Hx Hxs]; subst. constructor; [|now apply IH].
    intros Hy. apply Hx. clear IH Hnd Hxs Hx.
    induction Hrest as [|x' y' xs ys Hxy' _ IH]; [destruct Hy|].
    destruct Hy as [->|Hy]; [left; eapply Hinj; eassumption|right; now apply IH].
Qed.

Lemma first_match_NoDup (needle : string) (vs : list Video) :
  List.NoDup (first_match needle vs).
Proof.
  induction vs as [|x vs IH]; simpl; [constructor|].
  destruct (PyStr.contains needle (backend_filename x)); [|exact IH].
  constructor; [simpl; tauto|constructor].
Qed.

Lemma select_videos_NoDup (args : Namespace) (labels : Labels) :
  List.NoDup (videos labels) -> List.NoDup (select_videos args labels).
Proof.
  intros H. unfold select_videos.
  destruct (0 <? String.length (video args)); [apply first_match_NoDup|exact H].
Qed.

(** The paths of planned targets: the explicit paths that are used, then the
    default ones. *)
Lemma paths_of_targets {A} (vids : list A) (explicit ps : list string) :
  length ps = length vids - length explicit ->
  map snd (combine vids (explicit ++ ps))
  = firstn (min (length explicit) (length vids)) explicit ++ ps
  /\ skipn (length explicit) (map snd (combine vids (explicit ++ ps))) = ps.
Proof.
  intros Hlen. rewrite map_snd_combine, firstn_app.
  rewrite (@firstn_all2 _ (length vids - length explicit) ps) by lia.
  destruct (le_lt_dec (length explicit) (length vids)) as [Hle|Hgt].
  - rewrite Nat.min_l by exact Hle. rewrite firstn_all.
    rewrite (@firstn_all2 _ (length vids) explicit) by exact Hle.
    split; [reflexivity|].
    now rewrite skipn_app, skipn_all, Nat.sub_diag, skipn_0.
  - rewrite Nat.min_r by lia. split; [reflexivity|].
    assert (ps = []) as -> by (apply length_zero_iff_nil; lia).
    rewrite app_nil_r. apply skipn_all2. rewrite length_firstn. lia.
Qed.

Section DistinctPaths.
Context {World : Type}.
Implicit Types (s : state World).

(** C7, as the code has it: when the videos of the project are pairwise
    distinct, the default paths of one invocation are pairwise distinct.  All
    the paths of the targets are pairwise distinct when, in addition, the
    explicit paths are and none of them is one of the default paths; the
    planner does not check this. *)
Theorem default_paths_distinct (args : Namespace) (labels : Labels) s
    (explicit : list string) :
  heap s !! outputs args = Some explicit ->
  List.NoDup (videos labels) ->
  exists s' targets,
    plan_targets args labels s = (s', Ok targets)
    /\ let defaults := skipn (length explicit) (map snd targets) in
       List.NoDup defaults
       /\ (List.NoDup explicit ->
           (forall p, In p explicit -> ~ In p defaults) ->
           List.NoDup (map snd targets)).
Proof.
  intros Hout Hnd.
  destruct (plan_targets_run args labels s explicit Hout) as [ps [Hps Hrun]].
  eexists _, _. split; [exact Hrun|]. cbv zeta.
  assert (Hlen : length ps = length (select_videos args labels) - length explicit).
  { apply Forall2_length in Hps. rewrite length_skipn in Hps. lia. }
  destruct (paths_of_targets (select_videos args labels) explicit ps Hlen)
    as [Hpaths Hdef].
  rewrite Hdef, Hpaths.
  assert (Hnps : List.NoDup ps).
  { eapply Forall2_NoDup; [exact Hps| |].
    - intros x x' y Hx Hx'. unfold is_default_name in Hx, Hx'.
      pose proof (naming_of_wf args) as Hwf.
      destruct (naming_of args) as [[dir pre] suf].
      destruct Hwf as ((q & Hq & ->) & Hpre & Hsuf).
      apply (default_analysis_filename_inj labels x x' q pre suf y);
        assumption.
    - apply NoDup_skipn. now apply select_videos_NoDup. }
  split; [exact Hnps|]. intros Hne Hdisj.
  apply List.NoDup_app; [now apply NoDup_firstn|exact Hnps|].
  intros a Ha. apply Hdisj. eapply in_firstn, Ha.
Qed.

End DistinctPaths.

(** * Further properties of the module *)

(** ** Selecting videos *)

Lemma first_match_nth (needle : string) (vs : list Video) (i : nat) (v : Video) :
  nth_error vs i = Some v ->
  PyStr.contains needle (backend_filename v) = true ->
  (forall j u, j < i -> nth_error vs j = Some u ->
               PyStr.contains needle (backend_filename u) = false) ->
  first_match needle vs = [v].
Proof.
  revert i. induction vs as [|x vs IH]; intros [|i] Hv Hc Hbefore;
    simpl in *; try discriminate.
  - injection Hv as ->. now rewrite Hc.
  - rewrite (Hbefore 0 x) by (simpl; trivial; lia).
    apply (IH i Hv Hc). intros j u Hj Hu. apply (Hbefore (S j) u); [lia|exact Hu].
Qed.

(** X1: a filter that is not empty selects one video only, the first one in
    project order whose backing file name contains it, however many others
    contain it too. *)
Theorem select_videos_first_match (args : Namespace) (labels : Labels)
    (i : nat) (v : Video) :
  video args <> EmptyString ->
  nth_error (videos labels) i = Some v ->
  PyStr.contains (video args) (backend_filename v) = true ->
  (forall j u, j < i -> nth_error (videos labels) j = Some u ->
               PyStr.contains (video args) (backend_filename u) = false) ->
  select_videos args labels = [v].
Proof.
  intros Hne Hv Hc Hbefore. unfold select_videos.
  destruct (video args) as [|c rest] eqn:E; [congruence|].
  simpl String.length. simpl Nat.ltb. cbv iota.
  now apply (first_match_nth _ _ i).
Qed.

(** ** A video outside the project *)

Lemma list_index_None (v : Video) (l : list Video) :
  list_index v l = None -> ~ In v l.
Proof.
  induction l as [|x l IH]; simpl; [tauto|].
  destruct (decide (x = v)) as [->|Hne]; [discriminate|].
  destruct (list_index v l); [discriminate|]. intros _ [H|H]; [congruence|].
  now apply IH.
Qed.

(** X2: [default_analysis_filename] returns a name exactly for the videos of
    the project; for any other video it raises the [ValueError] of
    [list.index], whatever the directory, the prefix and the suffix. *)
Theorem default_analysis_filename_needs_project_video (labels : Labels)
    (v : Video) (dir pre suf : string) :
  match default_analysis_filename labels v dir pre suf with
  | Ok _ => In v (videos labels)
  | Raise e => ~ In v (videos labels) /\ exn_cls e = ValueError
  end.
Proof.
  unfold default_analysis_filename.
  destruct (list_index v (videos labels)) as [i|] eqn:Hi.
  - apply list_index_spec in Hi as [Hi _]. eapply nth_error_In, Hi.
  - split; [now apply list_index_None|reflexivity].
Qed.

(** ** What the substitution removes *)

Lemma endswith_true (s suf : string) :
  PyStr.endswith s suf = true -> exists q, s = q +:+ suf.
Proof.
  induction s as [|c s' IH]; simpl; intros H.
  - destruct suf; [now exists EmptyString|discriminate].
  - apply orb_true_iff in H as [H|H].
    + change (String.eqb (String c s') suf = true) in H.
      apply String.eqb_eq in H. rewrite <- H. now exists EmptyString.
    + destruct (IH H) as [q ->]. now exists (String c q).
Qed.

Lemma match_here_suffix (suf rest : string) :
  In suf recognized_suffixes ->
  rest = EmptyString \/ rest = newline_str ->
  Re.match_here (suf +:+ rest) = Some rest.
Proof.
  unfold recognized_suffixes, newline_str. simpl.
  intros [<-|[<-|[<-|[<-|[]]]]] [-> | ->]; reflexivity.
Qed.

Lemma no_match_not_recognized (p : string) :
  (forall q x, p = q +:+ x -> Re.match_here x = None) ->
  ends_recognized p = false /\ ends_recognized_newline p = false.
Proof.
  intros Hno. split.
  - destruct (ends_recognized p) eqn:E; [|reflexivity]. exfalso.
    apply existsb_exists in E as (suf & Hin & He).
    apply endswith_true in He as [q Hq].
    pose proof (Hno q suf Hq) as Hm.
    pose proof (match_here_suffix suf EmptyString Hin (or_introl eq_refl)) as Hs.
    rewrite append_nil_r in Hs. congruence.
  - destruct (ends_recognized_newline p) eqn:E; [|reflexivity]. exfalso.
    apply existsb_exists in E as (suf & Hin & He).
    apply endswith_true in He as [q Hq].
    pose proof (Hno q _ Hq) as Hm.
    pose proof (match_here_suffix suf newline_str Hin (or_intror eq_refl)) as Hs.
    congruence.
Qed.

(** X3: on any path the substitution either changes nothing, and then the
    path ends neither in a recognized suffix nor in one followed by a
    newline, or removes exactly one recognized suffix that stands at the very
    end or right before a final newline; the text before that suffix and the
    newline are kept. *)
Theorem sub_suffix_removes_one_suffix (p : string) :
  (Re.sub_suffix p = p
   /\ ends_recognized p = false /\ ends_recognized_newline p = false)
  \/ exists q suf rest,
       In suf recognized_suffixes
       /\ (rest = EmptyString \/ rest = newline_str)
       /\ p = q +:+ suf +:+ rest
       /\ Re.sub_suffix p = q +:+ rest.
Proof.
  assert (H : (Re.sub_suffix p = p
               /\ forall q x, p = q +:+ x -> Re.match_here x = None)
              \/ exists q suf rest,
                   In suf recognized_suffixes
                   /\ (rest = EmptyString \/ rest = newline_str)
                   /\ p = q +:+ suf +:+ rest
                   /\ Re.sub_suffix p = q +:+ rest).
  { induction p as [|c p IH].
    - left. split; [reflexivity|]. intros q x Hq.
      destruct q; [|discriminate]. simpl in Hq. now subst.
    - destruct (Re.match_here (String c p)) as [rest|] eqn:Hm.
      + right. destruct (match_here_Some _ _ Hm) as (suf & Hin & Heq & Hrest).
        exists EmptyString, suf, rest. repeat split; try assumption.
        cbn [Re.sub_suffix]. now rewrite Hm.
      + cbn [Re.sub_suffix]. rewrite Hm.
        destruct IH as [[Hsub Hno]|(q & suf & rest & Hin & Hrest & Hp & Hsub)].
        * left. split; [now rewrite Hsub|]. intros q x Hq.
          destruct q as [|d q]; simpl in Hq; [now subst|].
          injection Hq as _ Hq. now apply (Hno q).
        * right. exists (String c q), suf, rest. repeat split; try assumption.
          -- now rewrite Hp.
          -- now rewrite Hsub. }
  destruct H as [[Hsub Hno]|H]; [left|right; exact H].
  split; [exact Hsub|]. now apply no_match_not_recognized.
Qed.

(** ** What an invocation never does *)

Section NeverFacts.
Context {World : Type} (svc : Services World).
Implicit Types (s : state World).

Lemma dispatch_nix_saves (args : Namespace) (labels : Labels) ts :
  forall s, saves (log (fst (dispatch_nix svc args labels ts s))) = saves (log s).
Proof.
  induction ts as [|t ts IH]; intros s; [reflexivity|].
  rewrite dispatch_nix_cons. cbv zeta.
  destruct (nix_write svc (snd t) labels (input_path args) (fst t) (world s))
    as [w [[]|e]].
  - rewrite IH. simpl. rewrite saves_app. simpl. apply app_nil_r.
  - destruct (decide (exn_cls e = ValueError));
      [|simpl; rewrite saves_app; simpl; apply app_nil_r].
    destruct (exn_args e) as [|m rest];
      [simpl; rewrite saves_app; simpl; apply app_nil_r|].
    rewrite IH. simpl. rewrite !saves_app. simpl. now rewrite !app_nil_r.
Qed.

Lemma dispatch_h5_saves (args : Namespace) (labels : Labels) ts :
  forall s, saves (log (fst (dispatch_h5 svc args labels ts s))) = saves (log s).
Proof.
  induction ts as [|t ts IH]; intros s; [reflexivity|].
  rewrite dispatch_h5_cons. cbv zeta.
  destruct (write_analysis svc labels (snd t) (input_path args) true (fst t)
                           (world s)) as [w [[]|e]].
  - rewrite IH. simpl. rewrite saves_app. simpl. apply app_nil_r.
  - simpl. rewrite saves_app. simpl. apply app_nil_r.
Qed.

(** X4: an invocation whose format contains ["analysis"] never calls the
    native saver, whether the import and the writers succeed or fail. *)
Theorem main_analysis_never_saves (args : Namespace) s (explicit : list string) :
  heap s !! outputs args = Some explicit ->
  PyStr.contains "analysis" (format args) = true ->
  saves (log (fst (main svc args s))) = saves (log s).
Proof.
  intros Hout Hfmt.
  destruct (import_labels_frame svc args s) as (Hheap & _ & Hsav).
  unfold main. unfold bind at 1.
  destruct (import_labels svc args s) as [s1 [labels|e]]; simpl in Hheap, Hsav;
    [|exact Hsav].
  rewrite Hfmt.
  destruct (plan_targets_run args labels s1 explicit) as [ps [_ Hplan]];
    [rewrite Hheap; exact Hout|].
  unfold export_analysis. unfold bind at 1. rewrite Hplan.
  destruct (PyStr.contains "nix" (format args)).
  - rewrite dispatch_nix_saves. exact Hsav.
  - rewrite dispatch_h5_saves. exact Hsav.
Qed.

(** X5: when the import fails, by the loader or by the generic reader it
    fell back to, [main] ends with that very error: no writer and no saver
    is called and the store is as before. *)
Theorem main_import_failure_is_final (args : Namespace) s s1 (e : exn) :
  import_labels svc args s = (s1, Raise e) ->
  main svc args s = (s1, Raise e)
  /\ attempts (log s1) = attempts (log s)
  /\ saves (log s1) = saves (log s)
  /\ heap s1 = heap s.
Proof.
  intros Himp.
  destruct (import_labels_frame svc args s) as (Hheap & Hatt & Hsav).
  rewrite Himp in Hheap, Hatt, Hsav. simpl in Hheap, Hatt, Hsav.
  split; [unfold main, bind; now rewrite Himp|]. auto.
Qed.

Lemma dispatch_h5_all_attempted (args : Namespace) (labels : Labels) :
  writers_succeed_always svc args labels ->
  forall ts s, exists s',
    dispatch_h5 svc args labels ts s = (s', Ok tt)
    /\ attempts (log s') = attempts (log s) ++ ts.
Proof.
  intros Hok. induction ts as [|[v o] ts IH]; intros s.
  - exists s. split; [reflexivity|]. now rewrite app_nil_r.
  - rewrite dispatch_h5_cons. cbv zeta. simpl fst. simpl snd.
    destruct (Hok o v (world s)) as [_ Hw].
    destruct (write_analysis svc labels o (input_path args) true v (world s))
      as [w r]. simpl in Hw. subst r.
    match goal with |- context [dispatch_h5 _ _ _ ts ?s1] =>
      destruct (IH s1) as [s' [Hrun Hatt]] end.
    exists s'. split; [exact Hrun|]. rewrite Hatt. simpl.
    rewrite attempts_app. simpl. now rewrite <- app_assoc.
Qed.

(** X6: when the project is imported and the analysis writers do not fail,
    an analysis export of either kind calls the writer exactly once per
    planned target, in the order of the plan, and ends normally. *)
Theorem main_export_attempts_plan_in_order (args : Namespace) (labels : Labels)
    s s1 (explicit : list string) :
  heap s !! outputs args = Some explicit ->
  PyStr.contains "analysis" (format args) = true ->
  import_labels svc args s = (s1, Ok labels) ->
  writers_succeed_always svc args labels ->
  exists s2 targets s',
    plan_targets args labels s1 = (s2, Ok targets)
    /\ main svc args s = (s', Ok tt)
    /\ attempts (log s') = attempts (log s) ++ targets.
Proof.
  intros Hout Hfmt Himp Hok.
  destruct (import_labels_frame svc args s) as (Hheap & Hatt & _).
  rewrite Himp in Hheap, Hatt. simpl in Hheap, Hatt.
  destruct (plan_targets_run args labels s1 explicit) as [ps [_ Hplan]];
    [rewrite Hheap; exact Hout|].
  assert (Hsoft : nix_fails_softly svc args labels).
  { intros o v w. destruct (Hok o v w) as [Hn _].
    destruct (nix_write svc o labels (input_path args) v w) as [w' r].
    simpl in Hn. now subst r. }
  eexists _, _. 
  unfold main. unfold bind at 1. rewrite Himp, Hfmt.
  unfold export_analysis. unfold bind at 1. rewrite Hplan.
  destruct (PyStr.contains "nix" (format args)).
  - edestruct (dispatch_nix_all_attempted svc args labels Hsoft)
      as [s' [Hrun Hatt']].
    exists s'. split; [reflexivity|]. split; [exact Hrun|].
    rewrite Hatt'. simpl. now rewrite Hatt.
  - edestruct (dispatch_h5_all_attempted args labels Hok) as [s' [Hrun Hatt']].
    exists s'. split; [reflexivity|]. split; [exact Hrun|].
    rewrite Hatt'. simpl. now rewrite Hatt.
Qed.

End NeverFacts.

(** ** Where a default path lies *)

Lemma endswith_refl (s : string) : PyStr.endswith s s = true.
Proof. destruct s; simpl; [reflexivity|]. now rewrite Ascii.eqb_refl, String.eqb_refl. Qed.

Lemma endswith_app_r (a b suf : string) :
  PyStr.endswith b suf = true -> PyStr.endswith (a +:+ b) suf = true.
Proof.
  intros H. induction a as [|c a' IH]; simpl; [exact H|].
  rewrite IH. apply orb_true_r.
Qed.

(** X7: the default path of a video lies in the directory of the input path
    (after the substitution): parsed as a path, its parent is the parent of
    the stripped input path and its name is the default name of the video;
    as a text it ends in [".analysis."] followed by the suffix. *)
Theorem default_path_beside_input (args : Namespace) (labels : Labels)
    (v : Video) (p : string) :
  is_default_name args labels v p ->
  let fn := PurePath.make [Re.sub_suffix (input_path args)] in
  PurePath.parent (PurePath.make [p]) = PurePath.parent fn
  /\ (exists idx,
        nth_error (videos labels) idx = Some v
        /\ PurePath.name (PurePath.make [p])
           = PurePath.stem fn +:+ "." +:+ PyStr.format_03 idx +:+ "_"
               +:+ PurePath.stem (PurePath.make [backend_filename v])
               +:+ ".analysis." +:+ out_suffix_of (format args))
  /\ PyStr.endswith p (".analysis." +:+ out_suffix_of (format args)) = true.
Proof.
  unfold is_default_name, naming_of. cbv zeta. intros Hname.
  set (fn := PurePath.make [Re.sub_suffix (input_path args)]) in *.
  set (q := PurePath.parent fn) in *.
  assert (Hq : wf_path q) by apply parent_wf, make_single_wf.
  assert (Hpre : no_slash (PurePath.stem fn) = true)
    by apply stem_no_slash, make_single_wf.
  pose proof (out_suffix_no_slash (format args)) as Hsuf.
  destruct (list_index v (videos labels)) as [idx|] eqn:Hidx;
    [|unfold default_analysis_filename in Hname; now rewrite Hidx in Hname].
  rewrite (default_analysis_filename_value labels v q _ _ idx Hq Hpre Hsuf Hidx)
    in Hname.
  injection Hname as <-.
  set (name := analysis_name (PurePath.stem fn) idx
                 (PurePath.stem (PurePath.make [backend_filename v]))
                 (out_suffix_of (format args))).
  assert (Hc : component name = true).
  { apply analysis_name_component; try assumption.
    apply stem_no_slash, make_single_wf. }
  rewrite <- (str_join q name Hq Hc).
  rewrite make_str by now apply wf_path_snoc.
  split; [|split].
  - unfold PurePath.parent at 1. simpl. rewrite removelast_last. reflexivity.
  - exists idx. split; [now apply list_index_spec in Hidx as [H _]|].
    unfold PurePath.name. simpl. now rewrite last_last.
  - rewrite (str_join q name Hq Hc). unfold join_dir, name, analysis_name.
    destruct (String.eqb (PurePath.str q) ".");
      [|destruct (String.eqb (PurePath.str q) "/"
                  || String.eqb (PurePath.str q) "//")].
    + do 5 apply endswith_app_r. apply endswith_refl.
    + do 6 apply endswith_app_r. apply endswith_refl.
    + do 7 apply endswith_app_r. apply endswith_refl.
Qed.

(** ** The prefix of default names *)

Lemma rfind_lacks (c : ascii) (s : string) :
  lacks c s = true -> PyStr.rfind c s = None.
Proof.
  induction s as [|a s' IH]; simpl; [reflexivity|]. intros H.
  apply andb_true_iff in H as [Ha Hs]. rewrite (IH Hs).
  apply negb_true_iff in Ha. now rewrite Ha.
Qed.

Lemma rfind_last (c : ascii) (a b : string) :
  lacks c b = true ->
  PyStr.rfind c (a +:+ String c b) = Some (String.length a).
Proof.
  intros Hb. induction a as [|x a' IH]; simpl.
  - now rewrite (rfind_lacks c b Hb), Ascii.eqb_refl.
  - now rewrite IH.
Qed.

Lemma substring_prefix (a b : string) :
  String.substring 0 (String.length a) (a +:+ b) = a.
Proof.
  induction a as [|x a' IH]; simpl; [now destruct b|now rewrite IH].
Qed.

Lemma lacks_slash (s : string) : lacks "/" s = no_slash s.
Proof. induction s as [|a s' IH]; simpl; [reflexivity|now rewrite IH]. Qed.

Lemma split_slash_not_nil (s : string) : PyStr.split_slash s <> [].
Proof.
  induction s as [|c s' IH]; simpl; [discriminate|].
  destruct (Ascii.eqb c "/"); [discriminate|].
  destruct (PyStr.split_slash s'); discriminate.
Qed.

Lemma split_slash_app (a b : string) :
  PyStr.split_slash (a +:+ String "/" b)
  = PyStr.split_slash a ++ PyStr.split_slash b.
Proof.
  induction a as [|c a' IH]; simpl; [reflexivity|].
  destruct (Ascii.eqb c "/"); [now rewrite IH|]. rewrite IH.
  pose proof (split_slash_not_nil a') as Hne.
  destruct (PyStr.split_slash a') as [|y ys]; [congruence|reflexivity].
Qed.

Lemma lstrip_dir (d x : string) :
  component x = true ->
  PyStr.lstrip_slash (d +:+ String "/" x) = x
  \/ exists r, PyStr.lstrip_slash (d +:+ String "/" x) = r +:+ String "/" x.
Proof.
  intros Hx. destruct (component_head x Hx) as (a & t & -> & Ha).
  induction d as [|c d' IH]; simpl.
  - left. now rewrite Ha.
  - destruct (Ascii.eqb c "/"); [exact IH|].
    right. now exists (String c d').
Qed.

Lemma last_filter_snoc (l : list string) (x : string) :
  PurePath.keep_component x = true ->
  List.last (List.filter PurePath.keep_component (l ++ [x])) EmptyString = x.
Proof.
  intros Hx. rewrite List.filter_app. simpl. rewrite Hx. apply last_last.
Qed.

(** The name of a path is its last component, whatever stands before the
    last slash. *)
Lemma name_after_slash (d x : string) :
  component x = true ->
  PurePath.name (PurePath.make [d +:+ String "/" x]) = x.
Proof.
  intros Hx.
  assert (Hns : no_slash x = true)
    by (unfold component in Hx; now apply andb_true_iff in Hx as [H _]).
  assert (Hk : PurePath.keep_component x = true)
    by (unfold component in Hx; now apply andb_true_iff in Hx as [_ H]).
  assert (Hrel : forall rel,
            rel = x \/ (exists r, rel = r +:+ String "/" x) ->
            List.last (List.filter PurePath.keep_component
                         (PyStr.split_slash rel)) EmptyString = x).
  { intros rel [->|[r ->]].
    - rewrite split_slash_single by exact Hns. simpl. now rewrite Hk.
    - rewrite split_slash_app, (split_slash_single x Hns).
      now apply last_filter_snoc. }
  rewrite make_single.
  destruct (String.eqb_spec (d +:+ String "/" x) EmptyString) as [He|_].
  { destruct d; discriminate. }
  unfold PurePath.name. simpl PurePath.parts. apply Hrel.
  unfold PurePath.splitroot.
  destruct (d +:+ String "/" x) as [|c s] eqn:E; [destruct d; discriminate|].
  destruct (Ascii.eqb c "/").
  - cbv zeta. rewrite <- E.
    destruct (_ =? 2); simpl snd; now apply lstrip_dir.
  - simpl snd. right. exists d. now rewrite E.
Qed.

Lemma name_single (x : string) :
  component x = true -> PurePath.name (PurePath.make [x]) = x.
Proof.
  intros Hx. destruct (component_head x Hx) as (a & t & -> & Ha).
  assert (Hns : no_slash (String a t) = true)
    by (unfold component in Hx; now apply andb_true_iff in Hx as [H _]).
  assert (Hk : PurePath.keep_component (String a t) = true)
    by (unfold component in Hx; now apply andb_true_iff in Hx as [_ H]).
  rewrite make_single. cbn [String.eqb]. unfold PurePath.splitroot.
  rewrite Ha. simpl fst. simpl snd.
  rewrite split_slash_single by exact Hns. unfold PurePath.name. simpl.
  now rewrite Hk.
Qed.

Lemma stem_of_name (fn : PurePath.t) (b e : string) :
  b <> EmptyString -> e <> EmptyString -> lacks "." e = true ->
  PurePath.name fn = b +:+ String "." e ->
  PurePath.stem fn = b.
Proof.
  intros Hb He Hdot Hn. unfold PurePath.stem. rewrite Hn.
  rewrite rfind_last by exact Hdot. rewrite append_length. simpl String.length.
  assert (H1 : (0 <? String.length b) = true).
  { apply Nat.ltb_lt. destruct b; [congruence|simpl; lia]. }
  assert (H2 : (String.length b <? String.length b + S (String.length e) - 1)
               = true).
  { apply Nat.ltb_lt. destruct e; [congruence|simpl; lia]. }
  rewrite H1, H2. apply substring_prefix.
Qed.

(** X8: when the file name of the input is [b.e] followed by a recognized
    suffix, with [b] and [e] not empty and no dot in [e], the prefix of the
    default names is [b] alone: besides the recognized suffix the extension
    [e] is dropped too, with or without a directory in front. *)
Theorem base_stem_drops_inner_extension (b e suf : string) :
  b <> EmptyString -> e <> EmptyString ->
  no_slash b = true -> no_slash e = true -> lacks "." e = true ->
  In suf recognized_suffixes ->
  base_stem ((b +:+ String "." e) +:+ suf) = b
  /\ forall d, base_stem ((d +:+ String "/" (b +:+ String "." e)) +:+ suf) = b.
Proof.
  intros Hb He Hsb Hse Hdot Hsuf.
  assert (Hc : component (b +:+ String "." e) = true).
  { unfold component. apply andb_true_iff. split.
    - rewrite no_slash_append. simpl. now rewrite Hsb, Hse.
    - apply long_keep_component. rewrite append_length. simpl.
      destruct b; [congruence|simpl; lia]. }
  unfold base_stem. split; [|intros d]; rewrite sub_suffix_appended by exact Hsuf;
    apply (stem_of_name _ b e Hb He Hdot).
  - now apply name_single.
  - now apply name_after_slash.
Qed.

(** ** The width of the index *)

(** X9: for every index below 1000 the index field of a default name has
    exactly three characters, all of them digits, and reads back as the
    index. *)
Theorem format_03_three_digits (n : nat) :
  n < 1000 ->
  String.length (PyStr.format_03 n) = 3
  /\ all_digits (PyStr.format_03 n) = true
  /\ read_decimal (PyStr.format_03 n) = Some n.
Proof.
  intros Hn. split; [|split; [apply format_03_digits|apply read_format_03]].
  assert (Hall : forallb (fun k => String.length (PyStr.format_03 k) =? 3)
                         (seq 0 1000) = true) by (vm_compute; reflexivity).
  rewrite forallb_forall in Hall. apply Nat.eqb_eq, Hall, in_seq. lia.
Qed.

(** ** Where videos are searched *)

Lemma rstrip_slash_snoc (d : string) :
  PyStr.rstrip_slash (d +:+ "/") = PyStr.rstrip_slash d.
Proof. induction d as [|c d' IH]; simpl; [reflexivity|now rewrite IH]. Qed.

Lemma rstrip_slash_id (d : string) :
  PyStr.endswith d "/" = false -> PyStr.rstrip_slash d = d.
Proof.
  induction d as [|c d' IH]; [reflexivity|]. intros H.
  cbn [PyStr.endswith] in H. apply orb_false_iff in H as [H1 H2].
  cbn [PyStr.rstrip_slash]. rewrite (IH H2).
  destruct (Ascii.eqb_spec c "/") as [->|]; [|reflexivity].
  destruct d' as [|x d'']; [discriminate|reflexivity].
Qed.

Lemma lstrip_slash_empty (d : string) :
  PyStr.lstrip_slash d = EmptyString ->
  d = EmptyString \/ PyStr.endswith d "/" = true.
Proof.
  induction d as [|c d' IH]; [now left|]. cbn [PyStr.lstrip_slash].
  destruct (Ascii.eqb_spec c "/") as [->|]; [|discriminate]. intros H.
  right. cbn [PyStr.endswith]. destruct (IH H) as [->|He]; [reflexivity|].
  rewrite He. apply orb_true_r.
Qed.

Lemma lstrip_slash_append_empty (d t : string) :
  PyStr.lstrip_slash (d +:+ t) = EmptyString ->
  PyStr.lstrip_slash d = EmptyString.
Proof.
  induction d as [|c d' IH]; [reflexivity|]. simpl.
  destruct (Ascii.eqb c "/"); [exact IH|discriminate].
Qed.

Lemma dirname_bare (n : string) : no_slash n = true -> PyStr.dirname n = EmptyString.
Proof.
  intros Hn. unfold PyStr.dirname.
  rewrite rfind_lacks by (now rewrite lacks_slash). now destruct n.
Qed.

Lemma dirname_dir (d n : string) :
  d <> EmptyString -> PyStr.endswith d "/" = false -> no_slash n = true ->
  PyStr.dirname (d +:+ String "/" n) = d.
Proof.
  intros Hd He Hn. unfold PyStr.dirname.
  rewrite rfind_last by (now rewrite lacks_slash). cbv zeta.
  assert (Hhead : String.substring 0 (S (String.length d)) (d +:+ String "/" n)
                  = d +:+ "/").
  { replace (S (String.length d)) with (String.length (d +:+ "/"))
      by (rewrite append_length; simpl; lia).
    change (String "/" n) with ("/" +:+ n). rewrite <- append_assoc.
    apply substring_prefix. }
  rewrite Hhead.
  assert (H1 : String.eqb (d +:+ "/") EmptyString = false)
    by (destruct d; reflexivity).
  assert (H2 : String.eqb (PyStr.lstrip_slash (d +:+ "/")) EmptyString = false).
  { apply String.eqb_neq. intros H. apply lstrip_slash_append_empty in H.
    apply lstrip_slash_empty in H as [H|H]; congruence. }
  rewrite H1, H2. simpl negb. simpl andb.
  now rewrite rstrip_slash_snoc, rstrip_slash_id.
Qed.

Section SearchDirectory.
Context {World : Type} (svc : Services World).
Implicit Types (s : state World).

(** X10: the loader, and the generic reader when it is called, search the
    videos in the directory of the input path: for an input [d/n], where [n]
    has no slash and [d] is not empty and does not end in a slash, that
    directory is [d]; for an input without a slash it is the empty string. *)
Theorem import_searches_beside_input (args : Namespace) s (d n : string) :
  no_slash n = true ->
  input_path args = n
  \/ (input_path args = d +:+ String "/" n
      /\ d <> EmptyString /\ PyStr.endswith d "/" = false) ->
  let dir := if String.eqb (input_path args) n then EmptyString else d in
  let hint := if String.eqb (video args) EmptyString then None
              else Some (video args) in
  exists rest,
    log (fst (import_labels svc args s))
    = log s ++ ELoadFile (input_path args) dir :: rest
    /\ (rest = [] \/ rest = [EPrint notice_fallback;
                             ERead (input_path args) dir hint]).
Proof.
  intros Hn Hin. cbv zeta.
  assert (Hdir : PyStr.dirname (input_path args)
                 = if String.eqb (input_path args) n then EmptyString else d).
  { destruct Hin as [->|(-> & Hd & He)].
    - rewrite String.eqb_refl. now apply dirname_bare.
    - destruct (String.eqb_spec (d +:+ String "/" n) n) as [Heq|_].
      + exfalso. apply (f_equal no_slash) in Heq. rewrite no_slash_append in Heq.
        simpl in Heq. rewrite Hn, andb_false_r in Heq. discriminate.
      + now apply dirname_dir. }
  pose proof (import_labels_run svc args s) as Hrun. cbv zeta in Hrun.
  rewrite Hrun, Hdir. clear Hrun. fold (video_hint args).
  destruct (load_file svc _ _ _) as [w1 r]. destruct (falls_back r).
  - destruct (read svc _ _ _ _) as [w2 r2]. simpl.
    rewrite <- !app_assoc. simpl. eexists. split; [reflexivity|now right].
  - simpl. eexists. split; [reflexivity|now left].
Qed.

End SearchDirectory.

(** ** The video part of a default name *)

(** X11: for a video of the project whose backing file is [d/b.e], with [b]
    and [e] not empty and no dot in [e], the default name carries [b] alone
    between the index and [".analysis."]: the directory of the video and its
    last extension are left out. *)
Theorem default_name_carries_video_stem (labels : Labels) (v : Video)
    (q : PurePath.t) (pre suf d b e : string) (idx : nat) :
  wf_path q -> no_slash pre = true -> no_slash suf = true ->
  list_index v (videos labels) = Some idx ->
  backend_filename v = d +:+ String "/" (b +:+ String "." e) ->
  b <> EmptyString -> e <> EmptyString ->
  no_slash b = true -> no_slash e = true -> lacks "." e = true ->
  default_analysis_filename labels v (PurePath.str q) pre suf
  = Ok (join_dir (PurePath.str q)
          (pre +:+ "." +:+ PyStr.format_03 idx +:+ "_" +:+ b
               +:+ ".analysis." +:+ suf)).
Proof.
  intros Hq Hpre Hsuf Hidx Hfile Hb He Hsb Hse Hdot.
  rewrite (default_analysis_filename_value labels v q pre suf idx)
    by assumption.
  unfold analysis_name. rewrite Hfile.
  assert (Hc : component (b +:+ String "." e) = true).
  { unfold component. apply andb_true_iff. split.
    - rewrite no_slash_append. simpl. now rewrite Hsb, Hse.
    - apply long_keep_component. rewrite append_length. simpl.
      destruct b; [congruence|simpl; lia]. }
  rewrite (stem_of_name _ b e Hb He Hdot (name_after_slash d _ Hc)).
  reflexivity.
Qed.

(** * The scenarios, checked *)

Module ScenarioFacts.
Import Scenario.

Example two_videos_no_output :
  attempts (log (fst (main reliable (invocation "proj.slp" "analysis" "")
                           (initial []))))
  = [(camA, "proj.000_camA.analysis.h5"); (camB, "proj.001_camB.analysis.h5")].
Proof. vm_compute. reflexivity. Qed.

Example native_default_output :
  saves (log (fst (main reliable (invocation "proj.slp" "slp" "") (initial []))))
  = ["proj.slp.slp"].
Proof. vm_compute. reflexivity. Qed.

Example nix_one_explicit :
  attempts (log (fst (main reliable (invocation "data.json.zip" "analysis.nix" "")
                           (initial ["out.nix"]))))
  = [(camA, "out.nix"); (camB, "data.001_camB.analysis.nix")].
Proof. vm_compute. reflexivity. Qed.

Example rooted_input :
  attempts (log (fst (main reliable (invocation "/data.h5" "analysis" "camB")
                           (initial []))))
  = [(camB, "/data.001_camB.analysis.h5")].
Proof. vm_compute. reflexivity. Qed.

Example fallback_to_reader :
  log (fst (main (scripted (Raise not_native) (fun _ => Ok tt) (fun _ => Ok tt))
                 (invocation "pose.mat" "slp" "clip.mp4") (initial [])))
  = [ELoadFile "pose.mat" EmptyString;
     EPrint notice_fallback;
     ERead "pose.mat" EmptyString (Some "clip.mp4");
     EPrint "Output SLEAP dataset: pose.mat.slp";
     ESaveFile "pose.mat.slp"].
Proof. vm_compute. reflexivity. Qed.

(** For an input without a directory part the directory is ["."], and the
    join of ["."] with a name is the bare name: as paths,
    [./proj.000_camA.analysis.h5] and [proj.000_camA.analysis.h5] are the
    same. *)
Example default_path_bare_input :
  snd (plan_targets h5_no_output two_cameras (initial []))
  = Ok [(camA, "proj.000_camA.analysis.h5"); (camB, "proj.001_camB.analysis.h5")]
  /\ PurePath.make ["./proj.000_camA.analysis.h5"]
     = PurePath.make ["proj.000_camA.analysis.h5"]
  /\ PurePath.str (PurePath.make ["."; "proj.000_camA.analysis.h5"])
     = "proj.000_camA.analysis.h5".
Proof. repeat split; vm_compute; reflexivity. Qed.

(** C3, counterexample: an HDF5 export of two videos whose writer fails on
    the first target ends with that error and never attempts the second. *)
Lemma h5_failure_stops_batch :
  snd (plan_targets (invocation "proj.slp" "analysis" "") two_cameras
         (loaded "proj.slp" "" []))
  = Ok [(camA, "proj.000_camA.analysis.h5"); (camB, "proj.001_camB.analysis.h5")]
  /\ snd (main h5_failing (invocation "proj.slp" "analysis" "") (initial []))
     = Raise io_error
  /\ attempts (log (fst (main h5_failing (invocation "proj.slp" "analysis" "")
                              (initial []))))
     = [(camA, "proj.000_camA.analysis.h5")].
Proof. repeat split; vm_compute; reflexivity. Qed.

(** C6, counterexample: with the format ["csv"] and no explicit output the
    invocation saves nothing. *)
Lemma unknown_format_saves_nothing :
  PyStr.contains "analysis" "csv" = false
  /\ saves (log (fst (main reliable (invocation "proj.slp" "csv" "")
                           (initial []))))
     = []
  /\ snd (main reliable (invocation "proj.slp" "csv" "") (initial [])) = Ok tt.
Proof. repeat split; vm_compute; reflexivity. Qed.

(** C7, counterexample: one explicit path that is the default path of the
    second video gives two targets with the same path. *)
Lemma explicit_path_collides_with_default :
  List.NoDup (videos two_cameras)
  /\ List.NoDup ["proj.001_camB.analysis.h5"]
  /\ snd (plan_targets (invocation "proj.slp" "analysis" "") two_cameras
            (initial ["proj.001_camB.analysis.h5"]))
     = Ok [(camA, "proj.001_camB.analysis.h5");
           (camB, "proj.001_camB.analysis.h5")]
  /\ ~ List.NoDup
         (map snd [(camA, "proj.001_camB.analysis.h5");
                   (camB, "proj.001_camB.analysis.h5")]).
Proof.
  split; [|split; [|split]].
  - repeat constructor; simpl; intuition discriminate.
  - repeat constructor; simpl; tauto.
  - vm_compute. reflexivity.
  - intros H. inversion H as [|? ? Hin _]. apply Hin. now left.
Qed.

(** C8, counterexample: a path ending in [".slp"] and a newline does not end
    in a recognized suffix, yet the substitution shortens it, and appending
    [".slp"] gives another stem. *)
Lemma newline_breaks_stem_invariance :
  ends_recognized ("a.slp" +:+ newline_str) = false
  /\ In ".slp" recognized_suffixes
  /\ base_stem ("a.slp" +:+ newline_str) = "a" +:+ newline_str
  /\ base_stem (("a.slp" +:+ newline_str) +:+ ".slp") = "a"
  /\ base_stem (("a.slp" +:+ newline_str) +:+ ".slp")
     <> base_stem ("a.slp" +:+ newline_str).
Proof.
  split; [reflexivity|]. split; [simpl; tauto|].
  split; [reflexivity|]. split; [reflexivity|].
  vm_compute. discriminate.
Qed.

Lemma plan_targets_explicit_then_default_witness :
  heap (initial ["out.nix"]) !! outputs nix_with_one_output = Some ["out.nix"]
  /\ exists s' targets,
       plan_targets nix_with_one_output two_cameras (initial ["out.nix"])
       = (s', Ok targets)
       /\ length targets = 2
       /\ map fst targets = [camA; camB]
       /\ firstn 1 (map snd targets) = ["out.nix"]
       /\ length (skipn 1 targets) = 1
       /\ Forall2 (is_default_name nix_with_one_output two_cameras)
                  [camB] (skipn 1 (map snd targets))
       /\ export_analysis reliable nix_with_one_output two_cameras
            (initial ["out.nix"])
          = dispatch_nix reliable nix_with_one_output two_cameras targets s'.
Proof.
  split; [reflexivity|].
  exact (plan_targets_explicit_then_default reliable nix_with_one_output
           two_cameras (initial ["out.nix"]) ["out.nix"] eq_refl).
Defined.


Lemma nix_rejecting_fails_softly (bad : string) (args : Namespace)
    (labels : Labels) :
  nix_fails_softly (nix_rejecting bad) args labels.
Proof.
  intros o v w. simpl. destruct (String.eqb o bad); simpl; [|exact I].
  split; [reflexivity|discriminate].
Defined.

Lemma export_analysis_failure_isolation_witness :
  heap (initial ["out.nix"]) !! outputs nix_with_one_output = Some ["out.nix"]
  /\ (exists s' targets,
        snd (plan_targets nix_with_one_output two_cameras (initial ["out.nix"]))
        = Ok targets
        /\ export_analysis (nix_rejecting "out.nix") nix_with_one_output
             two_cameras (initial ["out.nix"]) = (s', Ok tt)
        /\ attempts (log s') = targets)
  /\ heap (initial []) !! outputs h5_no_output = Some []
  /\ exists failed,
       export_analysis h5_failing h5_no_output two_cameras (initial [])
       = (failed, Raise io_error)
       /\ attempts (log failed) = [(camA, "proj.000_camA.analysis.h5")].
Proof.
  split; [reflexivity|]. split.
  { destruct (export_analysis_failure_isolation (nix_rejecting "out.nix")
                nix_with_one_output two_cameras (initial ["out.nix"])
                ["out.nix"] eq_refl) as (s1 & targets & Hplan & Hnix).
    destruct (Hnix (nix_rejecting_fails_softly _ _ _)) as (s' & Hrun & Hatt).
    exists s', targets. rewrite Hplan. repeat split; assumption. }
  split; [reflexivity|].
  destruct (export_analysis_failure_isolation h5_failing h5_no_output
              two_cameras (initial []) [] eq_refl)
    as (s1 & targets & Hplan & Hh5).
  change (PyStr.contains "nix" (format h5_no_output)) with false in Hh5.
  cbv iota in Hh5. destruct Hh5 as [Hstop _].
  vm_compute in Hplan. injection Hplan as <- <-.
  destruct (Hstop [] (camA, "proj.000_camA.analysis.h5")
              [(camB, "proj.001_camB.analysis.h5")] _ [] io_error
              eq_refl eq_refl eq_refl) as [Hrun Hatt].
  eexists. split; [exact Hrun|exact Hatt].
Defined.

Lemma dispatch_nix_value_error_caught_witness :
  dispatch_nix (nix_rejecting "bad.nix") nix_with_one_output two_cameras []
    (initial [])
  = (initial [], Ok tt)
  /\ nix_write (nix_rejecting "bad.nix") "bad.nix" two_cameras
       "data.json.zip" camA []
     = ([], Raise codec_error)
  /\ let run :=
       dispatch_nix (nix_rejecting "bad.nix") nix_with_one_output two_cameras
         ([] ++ (camA, "bad.nix") :: [(camB, "ok.nix")]) (initial []) in
     run
     = dispatch_nix (nix_rejecting "bad.nix") nix_with_one_output two_cameras
         [(camB, "ok.nix")]
         (after_call
            (after_call (initial []) []
               (ENixWrite "bad.nix" "data.json.zip" camA))
            [] (EPrint "Unsupported codec"))
     /\ In (EPrint "Unsupported codec") (log (fst run))
     /\ In (ENixWrite "ok.nix" "data.json.zip" camB) (log (fst run)).
Proof.
  split; [reflexivity|]. split; [reflexivity|].
  exact (dispatch_nix_value_error_caught (nix_rejecting "bad.nix")
           nix_with_one_output two_cameras [] [(camB, "ok.nix")] camA "bad.nix"
           (initial []) (initial []) [] codec_error eq_refl eq_refl).
Defined.

Lemma main_native_save_witness :
  heap (initial []) !! outputs (invocation "proj.slp" "slp" "") = Some []
  /\ PyStr.contains "analysis" "slp" = false
  /\ import_labels reliable (invocation "proj.slp" "slp" "") (initial [])
     = (loaded "proj.slp" "" [], Ok two_cameras)
  /\ let final := main reliable (invocation "proj.slp" "slp" "") (initial []) in
     attempts (log (fst final)) = []
     /\ saves (log (fst final)) = [] ++ ["proj.slp.slp"]
     /\ snd final = snd (save_file reliable two_cameras "proj.slp.slp" []).
Proof.
  split; [reflexivity|]. split; [reflexivity|]. split; [reflexivity|].
  exact (main_native_save reliable (invocation "proj.slp" "slp" "") two_cameras
           (initial []) (loaded "proj.slp" "" []) [] eq_refl eq_refl eq_refl).
Defined.

Lemma two_cameras_distinct : List.NoDup (videos two_cameras).
Proof. repeat constructor; simpl; intuition discriminate. Defined.

Lemma default_paths_distinct_witness :
  heap (initial []) !! outputs h5_no_output = Some []
  /\ List.NoDup (videos two_cameras)
  /\ exists s' targets,
       plan_targets h5_no_output two_cameras (initial []) = (s', Ok targets)
       /\ List.NoDup (skipn 0 (map snd targets))
       /\ (List.NoDup (@nil string) ->
           (forall p : string,
              In p (@nil string) -> ~ In p (skipn 0 (map snd targets))) ->
           List.NoDup (map snd targets)).
Proof.
  split; [reflexivity|]. split; [exact two_cameras_distinct|].
  exact (default_paths_distinct h5_no_output two_cameras (initial []) []
           eq_refl two_cameras_distinct).
Defined.

Lemma base_stem_suffix_appended_witness :
  ends_recognized "proj" = false
  /\ ends_recognized_newline "proj" = false
  /\ In ".slp" recognized_suffixes
  /\ Re.sub_suffix "proj" = "proj"
  /\ Re.sub_suffix ("proj" +:+ ".slp") = "proj"
  /\ base_stem ("proj" +:+ ".slp") = base_stem "proj".
Proof.
  assert (Hin : In ".slp" recognized_suffixes) by (simpl; tauto).
  split; [reflexivity|]. split; [reflexivity|]. split; [exact Hin|].
  exact (base_stem_suffix_appended "proj" ".slp" eq_refl eq_refl Hin).
Defined.

Lemma no_camera_named_zzz (v : Video) :
  In v (videos two_cameras) ->
  PyStr.contains (video filter_zzz) (backend_filename v) = false.
Proof. intros [<-|[<-|[]]]; reflexivity. Defined.

Lemma main_filter_without_match_witness :
  heap (initial []) !! outputs filter_zzz = Some []
  /\ PyStr.contains "analysis" (format filter_zzz) = true
  /\ import_labels reliable filter_zzz (initial [])
     = (loaded "proj.slp" "" [], Ok two_cameras)
  /\ video filter_zzz <> EmptyString
  /\ select_videos filter_zzz two_cameras = []
  /\ (exists s2, plan_targets filter_zzz two_cameras (loaded "proj.slp" "" [])
                 = (s2, Ok []))
  /\ exists s', main reliable filter_zzz (initial []) = (s', Ok tt)
       /\ log s' = [ELoadFile "proj.slp" ""]
       /\ world s' = []
       /\ attempts (log s') = [].
Proof.
  assert (Hne : video filter_zzz <> EmptyString) by discriminate.
  split; [reflexivity|]. split; [reflexivity|]. split; [reflexivity|].
  split; [exact Hne|].
  exact (main_filter_without_match reliable filter_zzz two_cameras (initial [])
           (loaded "proj.slp" "" []) [] eq_refl eq_refl eq_refl Hne
           no_camera_named_zzz).
Defined.

Lemma main_keeps_explicit_outputs_witness :
  heap (initial ["a.h5"]) !! outputs h5_no_output = Some ["a.h5"]
  /\ heap (fst (main reliable h5_no_output (initial ["a.h5"])))
       !! outputs h5_no_output = Some ["a.h5"]
  /\ (forall l xs,
        heap (initial ["a.h5"]) !! l = Some xs ->
        heap (fst (main reliable h5_no_output (initial ["a.h5"]))) !! l = Some xs)
  /\ fresh (dom (heap (initial ["a.h5"]))) <> outputs h5_no_output.
Proof.
  split; [reflexivity|].
  exact (main_keeps_explicit_outputs reliable h5_no_output (initial ["a.h5"])
           ["a.h5"] eq_refl).
Defined.

Lemma no_match_before_camB (j : nat) (u : Video) :
  j < 1 -> nth_error (videos two_cameras) j = Some u ->
  PyStr.contains "camB" (backend_filename u) = false.
Proof.
  intros Hj Hu. destruct j as [|j]; [|lia]. injection Hu as <-. reflexivity.
Defined.

Lemma select_videos_first_match_witness :
  video (invocation "proj.slp" "analysis" "camB") <> EmptyString
  /\ nth_error (videos two_cameras) 1 = Some camB
  /\ PyStr.contains "camB" (backend_filename camB) = true
  /\ select_videos (invocation "proj.slp" "analysis" "camB") two_cameras = [camB].
Proof.
  assert (Hne : video (invocation "proj.slp" "analysis" "camB") <> EmptyString)
    by discriminate.
  split; [exact Hne|]. split; [reflexivity|]. split; [reflexivity|].
  exact (select_videos_first_match (invocation "proj.slp" "analysis" "camB")
           two_cameras 1 camB Hne eq_refl eq_refl no_match_before_camB).
Defined.

Lemma main_analysis_never_saves_witness :
  heap (initial []) !! outputs h5_no_output = Some []
  /\ PyStr.contains "analysis" (format h5_no_output) = true
  /\ saves (log (fst (main h5_failing h5_no_output (initial []))))
     = saves (log (initial [])).
Proof.
  split; [reflexivity|]. split; [reflexivity|].
  exact (main_analysis_never_saves h5_failing h5_no_output (initial []) []
           eq_refl eq_refl).
Defined.

Lemma main_import_failure_is_final_witness :
  import_labels load_failing h5_no_output (initial [])
  = (loaded "proj.slp" EmptyString [], Raise io_error)
  /\ main load_failing h5_no_output (initial [])
     = (loaded "proj.slp" EmptyString [], Raise io_error)
  /\ attempts (log (loaded "proj.slp" EmptyString [])) = attempts (log (initial []))
  /\ saves (log (loaded "proj.slp" EmptyString [])) = saves (log (initial []))
  /\ heap (loaded "proj.slp" EmptyString []) = heap (initial []).
Proof.
  split; [reflexivity|].
  exact (main_import_failure_is_final load_failing h5_no_output (initial [])
           (loaded "proj.slp" EmptyString []) io_error eq_refl).
Defined.

Lemma reliable_writers_succeed (args : Namespace) (labels : Labels) :
  writers_succeed_always reliable args labels.
Proof. intros o v w. split; reflexivity. Defined.

Lemma main_export_attempts_plan_in_order_witness :
  heap (initial []) !! outputs h5_no_output = Some []
  /\ PyStr.contains "analysis" (format h5_no_output) = true
  /\ import_labels reliable h5_no_output (initial [])
     = (loaded "proj.slp" EmptyString [], Ok two_cameras)
  /\ exists s2 targets s',
       plan_targets h5_no_output two_cameras (loaded "proj.slp" EmptyString [])
       = (s2, Ok targets)
       /\ main reliable h5_no_output (initial []) = (s', Ok tt)
       /\ attempts (log s') = attempts (log (initial [])) ++ targets.
Proof.
  split; [reflexivity|]. split; [reflexivity|]. split; [reflexivity|].
  exact (main_export_attempts_plan_in_order reliable h5_no_output two_cameras
           (initial []) (loaded "proj.slp" EmptyString []) [] eq_refl eq_refl
           eq_refl (reliable_writers_succeed _ _)).
Defined.

Lemma default_path_beside_input_witness :
  is_default_name in_data_dir two_cameras camB "data/proj.001_camB.analysis.h5"
  /\ PurePath.parent (PurePath.make ["data/proj.001_camB.analysis.h5"])
     = PurePath.parent (PurePath.make [Re.sub_suffix "data/proj.slp"])
  /\ (exists idx,
        nth_error [camA; camB] idx = Some camB
        /\ PurePath.name (PurePath.make ["data/proj.001_camB.analysis.h5"])
           = "proj" +:+ "." +:+ PyStr.format_03 idx +:+ "_" +:+ "camB"
               +:+ ".analysis." +:+ "h5")
  /\ PyStr.endswith "data/proj.001_camB.analysis.h5" ".analysis.h5" = true.
Proof.
  assert (H : is_default_name in_data_dir two_cameras camB
                "data/proj.001_camB.analysis.h5") by reflexivity.
  split; [exact H|].
  exact (default_path_beside_input in_data_dir two_cameras camB _ H).
Defined.

Lemma base_stem_drops_inner_extension_witness :
  "proj" <> EmptyString /\ "v1" <> EmptyString
  /\ no_slash "proj" = true /\ no_slash "v1" = true /\ lacks "." "v1" = true
  /\ In ".h5" recognized_suffixes
  /\ base_stem (("proj" +:+ String "." "v1") +:+ ".h5") = "proj"
  /\ forall d,
       base_stem ((d +:+ String "/" ("proj" +:+ String "." "v1")) +:+ ".h5")
       = "proj".
Proof.
  assert (H1 : "proj" <> EmptyString) by discriminate.
  assert (H2 : "v1" <> EmptyString) by discriminate.
  assert (Hin : In ".h5" recognized_suffixes) by (simpl; tauto).
  split; [exact H1|]. split; [exact H2|]. split; [reflexivity|].
  split; [reflexivity|]. split; [reflexivity|]. split; [exact Hin|].
  exact (base_stem_drops_inner_extension "proj" "v1" ".h5" H1 H2 eq_refl eq_refl
           eq_refl Hin).
Defined.

Lemma format_03_three_digits_witness :
  7 < 1000
  /\ String.length (PyStr.format_03 7) = 3
  /\ all_digits (PyStr.format_03 7) = true
  /\ read_decimal (PyStr.format_03 7) = Some 7.
Proof.
  assert (H : 7 < 1000) by lia.
  split; [exact H|]. exact (format_03_three_digits 7 H).
Defined.

Lemma import_searches_beside_input_witness :
  no_slash "proj.slp" = true
  /\ (input_path in_data_dir = "data" +:+ String "/" "proj.slp"
      /\ "data" <> EmptyString /\ PyStr.endswith "data" "/" = false)
  /\ exists rest,
       log (fst (import_labels reliable in_data_dir (initial [])))
       = log (initial []) ++ ELoadFile "data/proj.slp" "data" :: rest
       /\ (rest = []
           \/ rest = [EPrint notice_fallback;
                      ERead "data/proj.slp" "data" None]).
Proof.
  assert (H : input_path in_data_dir = "data" +:+ String "/" "proj.slp"
              /\ "data" <> EmptyString /\ PyStr.endswith "data" "/" = false)
    by (split; [reflexivity|split; [discriminate|reflexivity]]).
  split; [reflexivity|]. split; [exact H|].
  exact (import_searches_beside_input reliable in_data_dir (initial []) "data"
           "proj.slp" eq_refl (or_intror H)).
Defined.

Lemma default_name_carries_video_stem_witness :
  wf_path (PurePath.mk EmptyString ["data"])
  /\ no_slash "proj" = true /\ no_slash "h5" = true
  /\ list_index camB (videos two_cameras) = Some 1
  /\ backend_filename camB = "vids" +:+ String "/" ("camB" +:+ String "." "mp4")
  /\ "camB" <> EmptyString /\ "mp4" <> EmptyString
  /\ no_slash "camB" = true /\ no_slash "mp4" = true /\ lacks "." "mp4" = true
  /\ default_analysis_filename two_cameras camB "data" "proj" "h5"
     = Ok "data/proj.001_camB.analysis.h5".
Proof.
  assert (Hwf : wf_path (PurePath.mk EmptyString ["data"])).
  { split; [simpl; tauto|]. repeat constructor. }
  assert (H1 : "camB" <> EmptyString) by discriminate.
  assert (H2 : "mp4" <> EmptyString) by discriminate.
  split; [exact Hwf|]. split; [reflexivity|]. split; [reflexivity|].
  split; [reflexivity|]. split; [reflexivity|]. split; [exact H1|].
  split; [exact H2|]. split; [reflexivity|]. split; [reflexivity|].
  split; [reflexivity|].
  exact (default_name_carries_video_stem two_cameras camB
           (PurePath.mk EmptyString ["data"]) "proj" "h5" "vids" "camB" "mp4" 1
           Hwf eq_refl eq_refl eq_refl eq_refl H1 H2 eq_refl eq_refl eq_refl).
Defined.

End ScenarioFacts.
